(** * hdwallet-ledger: the Ledger wallet facade ([ledger.ts])

    A shallow embedding of [packages/hdwallet-ledger/src/ledger.ts]:
    the Ledger-specific Ethereum path classifier, the account path
    enumerators, the application guard and the public-key dispatcher.

    Modelling conventions.
    - A JavaScript number is modelled by its integer value ([VNum z]);
      [NaN] and [undefined] are kept as separate values because
      [a[i] += 1] produces them on short arrays.  Arithmetic on [VNum] is
      exact, as it is in JavaScript for every safe integer (in particular
      for all 32-bit path elements and their successors); from [2^53] up
      JavaScript rounds, so every statement that gives the value of a sum
      keeps its operand in the safe range ([safe_integer]).
    - Arrays live in a store ([heap]) and are passed by reference, so
      that aliasing between a message and a returned object is visible.
    - Functions imported from [@shapeshiftoss/hdwallet-core], [./utils],
      [./bitcoin] and [./ethereum] are not part of this file of the
      repository; they are parameters ([Core], [Env]). *)

From Stdlib Require Import ZArith List String Ascii Lia Bool DecimalString.
From stdpp Require Import base option list gmap strings.

Local Open Scope string_scope.
Local Open Scope Z_scope.
Local Open Scope list_scope.

(** ** JavaScript values held by path arrays *)

Inductive value : Type :=
| VNum (z : Z)
| VNaN
| VUndef.

#[global] Instance value_eq_dec : EqDecision value.
Proof. solve_decision. Defined.

#[global] Instance value_inhabited : Inhabited value := populate VUndef.

(** [ToInt32] and [ToUint32] of ECMAScript, on the modelled values. *)
Definition ToInt32 (v : value) : Z :=
  match v with
  | VNum z => (z + 2 ^ 31) mod 2 ^ 32 - 2 ^ 31
  | VNaN | VUndef => 0
  end.

Definition ToUint32 (v : value) : Z :=
  match v with
  | VNum z => z mod 2 ^ 32
  | VNaN | VUndef => 0
  end.

(** [a & b]: both operands through [ToInt32], the result a signed 32-bit
    integer. *)
Definition js_band (a b : value) : value :=
  VNum (Z.land (ToInt32 a) (ToInt32 b)).

(** [a >>> 0]: reinterpretation as an unsigned 32-bit integer. *)
Definition js_ushr0 (a : value) : value := VNum (ToUint32 a).

(** [a === b] (strict equality: [NaN] equals nothing). *)
Definition js_seq (a b : value) : bool :=
  match a, b with
  | VNum x, VNum y => x =? y
  | VUndef, VUndef => true
  | _, _ => false
  end.

(** [a !== b]. *)
Definition js_sneq (a b : value) : bool := negb (js_seq a b).

(** [a + b] on numbers; [undefined + 1] and [NaN + 1] are [NaN].  The
    sum of two integers is the one JavaScript computes as long as the
    operands and the sum are safe integers; beyond them JavaScript rounds
    to the nearest double, which this definition does not follow. *)
Definition js_add (a b : value) : value :=
  match a, b with
  | VNum x, VNum y => VNum (x + y)
  | _, _ => VNaN
  end.

(** [Number.isSafeInteger] on an integer: [z] and [z + 1] are then both
    exact doubles, and [z + 1] in JavaScript is the integer [z + 1]. *)
Definition safe_integer (z : Z) : Prop := - 2 ^ 53 < z < 2 ^ 53.

(** [`${v}`]: the text of a value inside a template literal (decimal for
    integers). *)
Definition js_toString (v : value) : string :=
  match v with
  | VNum z => NilZero.string_of_int (Z.to_int z)
  | VNaN => "NaN"
  | VUndef => "undefined"
  end.

(** [path[i]]: an index past the end reads [undefined]. *)
Definition js_index (path : list value) (i : nat) : value :=
  match path !! i with
  | Some v => v
  | None => VUndef
  end.

(** [a[i] += 1] on the contents of an array.  In range it replaces the
    element; out of range JavaScript extends the array: the skipped slots
    read [undefined] and slot [i] holds [undefined + 1 = NaN]. *)
Definition js_incr_at (i : nat) (a : list value) : list value :=
  match a !! i with
  | Some v => <[i := js_add v (VNum 1)]> a
  | None => a ++ replicate (i - length a) VUndef ++ [js_add VUndef (VNum 1)]
  end.

(** [s.toLowerCase()] on the ASCII letters; other bytes are unchanged. *)
Definition lower_ascii (c : ascii) : ascii :=
  let n := nat_of_ascii c in
  if ((65 <=? n) && (n <=? 90))%nat then ascii_of_nat (n + 32) else c.

Fixpoint toLowerCase (s : string) : string :=
  match s with
  | EmptyString => EmptyString
  | String c r => String (lower_ascii c) (toLowerCase r)
  end.

(** ** Data model of [hdwallet-core] used by [ledger.ts] *)

(** The spec's [hardened(i)]. *)
Definition hardened (i : Z) : Z := 0x80000000 + i.

Module PathDescription.
Record t {ST : Type} : Type := mk {
  verbose : string;
  coin : string;
  isKnown : bool;
  wholeAccount : option bool;
  accountIdx : option value;
  isPrefork : option bool;
  scriptType : option ST;
}.
Arguments t : clear implicits.
Arguments mk {ST}.
End PathDescription.

Module DescribePath.
Record t {ST : Type} : Type := mk {
  path : list value;
  coin : string;
  scriptType : option ST;
}.
Arguments t : clear implicits.
Arguments mk {ST}.
End DescribePath.

(** Arrays are held by reference: a location of the store. *)
Abbreviation loc := positive.

Module BTCAccountPath.
Record t {ST : Type} : Type := mk {
  addressNList : loc;
  coin : string;
  scriptType : ST;
}.
Arguments t : clear implicits.
Arguments mk {ST}.
End BTCAccountPath.

Module ETHAccountPath.
(** [addressNList] is the extra property that the whole-account branch
    of [ethNextAccountPath] writes; an object without it has [None]. *)
Record t : Type := mk {
  addressNList : option loc;
  hardenedPath : loc;
  relPath : loc;
}.
End ETHAccountPath.

(** The functions of [@shapeshiftoss/hdwallet-core] that [ledger.ts]
    calls on paths.  They are pure: none of them writes to its argument. *)
Class Core (ST : Type) : Type := {
  slip44ByCoin : string -> Z;
  addressNListToBIP32 : list value -> string;
  core_describePath : DescribePath.t ST -> PathDescription.t ST;
  btcDescribePath : list value -> string -> ST -> PathDescription.t ST;
  ethDescribePath : list value -> PathDescription.t ST;
  core_hardenedPath : list value -> list value;
  core_relativePath : list value -> list value;
}.

(** ** The store of arrays *)

Abbreviation heap := (gmap positive (list value)).

(** Computations that read and write arrays. *)
Definition M (A : Type) : Type := heap -> A * heap.

Definition ret {A : Type} (a : A) : M A := fun h => (a, h).

Definition bind {A B : Type} (m : M A) (k : A -> M B) : M B :=
  fun h => let (a, h') := m h in k a h'.

Notation "'let*' x := m 'in' k" := (bind m (fun x => k))
  (at level 10, x name, m at level 100, k at level 200, only parsing).

(** An array literal or the result of [concat]/[filter]: a fresh array. *)
Definition new_array (a : list value) : M loc :=
  fun h => let l := fresh (dom h) in (l, <[l := a]> h).

(** The elements of the array behind a reference.  A reference always
    points to an array of the store; a location outside it reads as the
    empty array. *)
Definition read (l : loc) : M (list value) := fun h => (h !!! l, h).

(** [a[i] += 1] through the reference [l]: every holder of [l] sees it. *)
Definition incr (l : loc) (i : nat) : M unit :=
  fun h => (tt, <[l := js_incr_at i (h !!! l)]> h).

(** ** [ledger.ts]: path classification and account iteration *)

Section LedgerInfo.
Context {ST : Type} {core : Core ST}.

(** [function ethDescribeLedgerPath(path)] *)
Definition ethDescribeLedgerPath (path : list value) : PathDescription.t ST :=
  let pathStr := addressNListToBIP32 path in
  let unknown :=
    {| PathDescription.verbose := pathStr;
       PathDescription.coin := "Ethereum";
       PathDescription.isKnown := false;
       PathDescription.wholeAccount := None;
       PathDescription.accountIdx := None;
       PathDescription.isPrefork := None;
       PathDescription.scriptType := None |} in
  let known (accountIdx : value) :=
    {| PathDescription.verbose := "Ethereum Account #" +:+ js_toString accountIdx;
       PathDescription.wholeAccount := Some true;
       PathDescription.accountIdx := Some accountIdx;
       PathDescription.coin := "Ethereum";
       PathDescription.isKnown := true;
       PathDescription.isPrefork := Some false;
       PathDescription.scriptType := None |} in
  if negb (length path =? 5)%nat && negb (length path =? 4)%nat then unknown else
  if js_sneq (js_index path 0) (VNum (0x80000000 + 44)) then unknown else
  if js_sneq (js_index path 1) (VNum (0x80000000 + slip44ByCoin "Ethereum"))
  then unknown else
  if js_sneq (js_ushr0 (js_band (js_index path 2) (VNum 0x80000000)))
             (VNum 0x80000000)
  then unknown else
  if (length path =? 5)%nat then
    if js_sneq (js_index path 3) (VNum 0) then unknown else
    if js_sneq (js_index path 4) (VNum 0) then unknown else
    known (js_ushr0 (js_band (js_index path 2) (VNum 0x7fffffff)))
  else if (length path =? 4)%nat then
    if js_sneq (js_index path 2) (VNum 0x80000000) then unknown else
    if js_seq (js_ushr0 (js_band (js_index path 3) (VNum 0x80000000)))
              (VNum 0x80000000)
    then unknown else
    known (js_index path 3)
  else unknown.

(** [LedgerHDWalletInfo.describePath] *)
Definition describePath (msg : DescribePath.t ST) : PathDescription.t ST :=
  if String.eqb (toLowerCase (DescribePath.coin msg)) "ethereum"
  then ethDescribeLedgerPath (DescribePath.path msg)
  else core_describePath msg.

(** A property that may be absent, used as a condition. *)
Definition truthy (b : option bool) : bool :=
  match b with
  | Some true => true
  | _ => false
  end.

(** [LedgerHDWalletInfo.btcNextAccountPath]; [None] is [undefined]. *)
Definition btcNextAccountPath (msg : BTCAccountPath.t ST)
  : M (option (BTCAccountPath.t ST)) :=
  let* path := read (BTCAccountPath.addressNList msg) in
  let description :=
    btcDescribePath path (BTCAccountPath.coin msg) (BTCAccountPath.scriptType msg) in
  if negb (PathDescription.isKnown description) then ret None else
  let addressNList := BTCAccountPath.addressNList msg in
  let* a := read addressNList in
  if js_seq (js_index a 0) (VNum (0x80000000 + 44))
     || js_seq (js_index a 0) (VNum (0x80000000 + 49))
     || js_seq (js_index a 0) (VNum (0x80000000 + 84))
  then
    let* _ := incr addressNList 2 in
    ret (Some {| BTCAccountPath.addressNList := addressNList;
                 BTCAccountPath.coin := BTCAccountPath.coin msg;
                 BTCAccountPath.scriptType := BTCAccountPath.scriptType msg |})
  else ret None.

(** [LedgerHDWalletInfo.ethNextAccountPath]; [None] is [undefined]. *)
Definition ethNextAccountPath (msg : ETHAccountPath.t)
  : M (option ETHAccountPath.t) :=
  let* hp := read (ETHAccountPath.hardenedPath msg) in
  let* rp := read (ETHAccountPath.relPath msg) in
  let* addressNList := new_array (hp ++ rp) in
  let* a := read addressNList in
  let description := ethDescribePath (ST := ST) a in
  if negb (PathDescription.isKnown description) then ret None else
  if truthy (PathDescription.wholeAccount description) then
    let* _ := incr addressNList 2 in
    let* a' := read addressNList in
    let* hardenedPath := new_array (core_hardenedPath (ST := ST) a') in
    let* relPath := new_array (core_relativePath (ST := ST) a') in
    ret (Some {| ETHAccountPath.addressNList := Some addressNList;
                 ETHAccountPath.hardenedPath := hardenedPath;
                 ETHAccountPath.relPath := relPath |})
  else if (length a =? 5)%nat then
    let* _ := incr addressNList 2 in
    let* a' := read addressNList in
    let* hardenedPath := new_array (core_hardenedPath (ST := ST) a') in
    let* relPath := new_array (core_relativePath (ST := ST) a') in
    ret (Some {| ETHAccountPath.addressNList := ETHAccountPath.addressNList msg;
                 ETHAccountPath.hardenedPath := hardenedPath;
                 ETHAccountPath.relPath := relPath |})
  else if (length a =? 4)%nat then
    let* _ := incr addressNList 3 in
    let* a' := read addressNList in
    let* hardenedPath := new_array (core_hardenedPath (ST := ST) a') in
    let* relPath := new_array (core_relativePath (ST := ST) a') in
    ret (Some {| ETHAccountPath.addressNList := ETHAccountPath.addressNList msg;
                 ETHAccountPath.hardenedPath := hardenedPath;
                 ETHAccountPath.relPath := relPath |})
  else ret None.

End LedgerInfo.


(** ** [ledger.ts]: the wallet, its guard and its dispatcher *)

(** What [transport.call] resolves to.  Of the payload only [name] is
    read here; [None] is a payload without that property. *)
Record Response : Type := {
  success : bool;
  payload_name : option string;
}.

(** A call into [./bitcoin] or [./ethereum] with its message. *)
Inductive backend_call (BTCMsg ETHMsg GetPublicKey : Type) : Type :=
| btc_btcGetAddress (msg : BTCMsg)
| btc_btcSignTx (msg : BTCMsg)
| btc_btcSignMessage (msg : BTCMsg)
| btc_btcGetPublicKeys (msg : list GetPublicKey)
| eth_ethSignTx (msg : ETHMsg)
| eth_ethGetAddress (msg : ETHMsg)
| eth_ethSignMessage (msg : ETHMsg)
| eth_ethGetPublicKeys (msg : list GetPublicKey).
Arguments btc_btcGetAddress {_ _ _}.
Arguments btc_btcSignTx {_ _ _}.
Arguments btc_btcSignMessage {_ _ _}.
Arguments btc_btcGetPublicKeys {_ _ _}.
Arguments eth_ethSignTx {_ _ _}.
Arguments eth_ethGetAddress {_ _ _}.
Arguments eth_ethSignMessage {_ _ _}.
Arguments eth_ethGetPublicKeys {_ _ _}.

(** What a wallet operation can throw. *)
Inductive error (Exn : Type) : Type :=
| Error (message : string)              (* [new Error(message)] *)
| WrongApp (vendor expectedApp : string) (* [new core.WrongApp(vendor, app)] *)
| Thrown (e : Exn).                     (* thrown by a collaborator *)
Arguments Error {_}.
Arguments WrongApp {_}.
Arguments Thrown {_}.

(** The collaborators of the wallet: the transport with its device, the
    helpers of [./utils] and the coin backends.  The backends are opaque:
    they act on the device and resolve or throw. *)
Class Env : Type := {
  Dev : Type;
  Exn : Type;
  Res : Type;
  BTCMsg : Type;
  ETHMsg : Type;
  GetPublicKey : Type;
  msg_coin : BTCMsg -> option string;
  coinToLedgerAppName : string -> option string;
  supportedCoins : list string;
  handleError : Response -> option Exn;
  transport_call : string -> list string -> Dev -> (Exn + Response) * Dev;
  backend : backend_call BTCMsg ETHMsg GetPublicKey -> Dev -> (Exn + Res) * Dev;
}.

Section LedgerWallet.
Context {env : Env}.

Abbreviation call := (backend_call BTCMsg ETHMsg GetPublicKey).

(** What the wallet did, in order: its own transport calls and its
    calls into the coin backends. *)
Inductive event : Type :=
| EvCall (method : string) (args : list string)
| EvBackend (c : call).

Record World : Type := {
  dev : Dev;
  trace : list event;
}.

(** An [async] method of the wallet: it resolves or throws, and acts
    on the device. *)
Definition W (A : Type) : Type := World -> (error Exn + A) * World.

Definition wret {A : Type} (a : A) : W A := fun w => (inr a, w).

Definition throw {A : Type} (e : error Exn) : W A := fun w => (inl e, w).

Definition wbind {A B : Type} (m : W A) (k : A -> W B) : W B :=
  fun w =>
    match m w with
    | (inr a, w') => k a w'
    | (inl e, w') => (inl e, w')
    end.

Notation "'let!' x := m 'in' k" := (wbind m (fun x => k))
  (at level 10, x name, m at level 100, k at level 200, only parsing).

(** [await this.transport.call(null, method, ...args)] *)
Definition transport_call_ (method : string) (args : list string) : W Response :=
  fun w =>
    let (r, d) := transport_call method args (dev w) in
    let w' := {| dev := d; trace := trace w ++ [EvCall method args] |} in
    match r with
    | inr res => (inr res, w')
    | inl e => (inl (Thrown e), w')
    end.

(** [handleError(res, this.transport)]: returns or throws. *)
Definition handleError_ (res : Response) : W unit :=
  match handleError res with
  | None => wret tt
  | Some e => throw (Thrown e)
  end.

(** A call into a coin backend. *)
Definition invoke (c : call) : W Res :=
  fun w =>
    let (r, d) := backend c (dev w) in
    let w' := {| dev := d; trace := trace w ++ [EvBackend c] |} in
    match r with
    | inr x => (inr x, w')
    | inl e => (inl (Thrown e), w')
    end.

(** [`${s}`] for an optional string. *)
Definition str (s : option string) : string :=
  match s with
  | Some s => s
  | None => "undefined"
  end.

(** [LedgerHDWallet.validateCurrentApp].  The two conditions [!coin] and
    [!appName] hold for [undefined] and for the empty string. *)
Definition validateCurrentApp (coin : option string) : W unit :=
  match coin with
  | None => throw (Error "No coin provided")
  | Some coin =>
    if String.eqb coin "" then throw (Error "No coin provided") else
    match coinToLedgerAppName coin with
    | None =>
      throw (Error ("Unable to find associated app name for coin: " +:+ coin))
    | Some appName =>
      if String.eqb appName ""
      then throw (Error ("Unable to find associated app name for coin: " +:+ coin))
      else
        let! res := transport_call_ "getAppAndVersion" [] in
        let! _ := handleError_ res in
        let currentApp := payload_name res in
        if negb (bool_decide (currentApp = Some appName))
        then throw (WrongApp "Ledger" appName)
        else wret tt
    end
  end.

(** [LedgerHDWallet.getPublicKeys] *)
Definition getPublicKeys (msg : list GetPublicKey) : W Res :=
  let! res := transport_call_ "getAppAndVersion" [] in
  let! _ := handleError_ res in
  let name := payload_name res in
  let btcApps :=
    filter (fun x => x <> None) (map (fun x => coinToLedgerAppName x) supportedCoins) in
  if bool_decide (name ∈ btcApps) then invoke (btc_btcGetPublicKeys msg) else
  if bool_decide (name = Some "Ethereum") then invoke (eth_ethGetPublicKeys msg)
  else throw (Error ("getPublicKeys is not supported with the " +:+ str name +:+ " app")).

(** [LedgerHDWallet.btcGetAddress] *)
Definition btcGetAddress (msg : BTCMsg) : W Res :=
  let! _ := validateCurrentApp (msg_coin msg) in
  invoke (btc_btcGetAddress msg).

(** [LedgerHDWallet.btcSignTx] *)
Definition btcSignTx (msg : BTCMsg) : W Res :=
  let! _ := validateCurrentApp (msg_coin msg) in
  invoke (btc_btcSignTx msg).

(** [LedgerHDWallet.btcSignMessage] *)
Definition btcSignMessage (msg : BTCMsg) : W Res :=
  let! _ := validateCurrentApp (msg_coin msg) in
  invoke (btc_btcSignMessage msg).

(** [LedgerHDWallet.ethSignTx] *)
Definition ethSignTx (msg : ETHMsg) : W Res :=
  let! _ := validateCurrentApp (Some "Ethereum") in
  invoke (eth_ethSignTx msg).

(** [LedgerHDWallet.ethGetAddress] *)
Definition ethGetAddress (msg : ETHMsg) : W Res :=
  let! _ := validateCurrentApp (Some "Ethereum") in
  invoke (eth_ethGetAddress msg).

(** [LedgerHDWallet.ethSignMessage] *)
Definition ethSignMessage (msg : ETHMsg) : W Res :=
  let! _ := validateCurrentApp (Some "Ethereum") in
  invoke (eth_ethSignMessage msg).

End LedgerWallet.

(** ** The rules of the specification, in its own words *)

(** Bit 31 of a value, read off the integer: the meaning of "hardened". *)
Definition bit31 (v : value) : bool :=
  match v with
  | VNum z => Z.testbit z 31
  | VNaN | VUndef => false
  end.

(** The upper-case form of a lower-case ASCII letter. *)
Definition upper_of (c : ascii) : ascii := ascii_of_nat (nat_of_ascii c - 32).

(** [s] spells the lower-case word [word], each letter in either case. *)
Fixpoint spells (word s : string) : bool :=
  match word, s with
  | EmptyString, EmptyString => true
  | String l word', String c s' =>
    (Ascii.eqb c l || Ascii.eqb c (upper_of l)) && spells word' s'
  | _, _ => false
  end.

Section Rules.
Context {ST : Type} {core : Core ST}.

(** A path breaks a structural rule of the EVM scheme. *)
Inductive violates (p : list value) : Prop :=
| wrong_length : length p <> 4%nat -> length p <> 5%nat -> violates p
| wrong_purpose : js_index p 0 <> VNum (hardened 44) -> violates p
| wrong_coin_type :
    js_index p 1 <> VNum (hardened (slip44ByCoin "Ethereum")) -> violates p
| account_not_hardened : bit31 (js_index p 2) = false -> violates p
| wrong_suffix :
    length p = 5%nat ->
    js_index p 3 <> VNum 0 \/ js_index p 4 <> VNum 0 -> violates p
| wrong_short_form :
    length p = 4%nat ->
    js_index p 2 <> VNum (hardened 0) \/ bit31 (js_index p 3) = true ->
    violates p.

(** The result for a path that is not recognised. *)
Definition unknown_description (p : list value) : PathDescription.t ST :=
  {| PathDescription.verbose := addressNListToBIP32 p;
     PathDescription.coin := "Ethereum";
     PathDescription.isKnown := false;
     PathDescription.wholeAccount := None;
     PathDescription.accountIdx := None;
     PathDescription.isPrefork := None;
     PathDescription.scriptType := None |}.

(** The result for a recognised path with account index [accountIdx]. *)
Definition known_description (accountIdx : value) : PathDescription.t ST :=
  {| PathDescription.verbose := "Ethereum Account #" +:+ js_toString accountIdx;
     PathDescription.coin := "Ethereum";
     PathDescription.isKnown := true;
     PathDescription.wholeAccount := Some true;
     PathDescription.accountIdx := Some accountIdx;
     PathDescription.isPrefork := Some false;
     PathDescription.scriptType := None |}.

(** The unhardened, bit-masked form of an element. *)
Definition unhardened (v : value) : value :=
  match v with
  | VNum z => VNum (z mod 2 ^ 31)
  | VNaN | VUndef => VNum 0
  end.

(** The rules of the EVM scheme, read as a decision on the shape of
    the path. *)
Definition classify_rules (p : list value) : PathDescription.t ST :=
  match p with
  | [p0; p1; p2; p3; p4] =>
    if decide (p0 = VNum (hardened 44)
               /\ p1 = VNum (hardened (slip44ByCoin "Ethereum"))
               /\ bit31 p2 = true /\ p3 = VNum 0 /\ p4 = VNum 0)
    then known_description (unhardened p2)
    else unknown_description p
  | [p0; p1; p2; p3] =>
    if decide (p0 = VNum (hardened 44)
               /\ p1 = VNum (hardened (slip44ByCoin "Ethereum"))
               /\ p2 = VNum (hardened 0) /\ bit31 p3 = false)
    then known_description p3
    else unknown_description p
  | _ => unknown_description p
  end.

(** The canonical five-element account path of the EVM scheme. *)
Definition eth_account_path (i : Z) : list value :=
  [VNum (hardened 44); VNum (hardened (slip44ByCoin "Ethereum"));
   VNum (hardened i); VNum 0; VNum 0].
End Rules.

Section WalletRules.
Context {env : Env}.

(** The reported name is the application of some supported UTXO coin. *)
Definition utxo_app (name : option string) : Prop :=
  exists coin app,
    coin ∈ supportedCoins /\ coinToLedgerAppName coin = Some app /\ name = Some app.

(** The calls into the coin backends recorded in a trace, in order. *)
Definition backend_events (tr : list event)
    : list (backend_call BTCMsg ETHMsg GetPublicKey) :=
  omap (fun e => match e with EvBackend c => Some c | EvCall _ _ => None end) tr.

(** The backend function a call names, without its message. *)
Definition backend_fn (c : backend_call BTCMsg ETHMsg GetPublicKey) : string :=
  match c with
  | btc_btcGetAddress _ => "btc.btcGetAddress"
  | btc_btcSignTx _ => "btc.btcSignTx"
  | btc_btcSignMessage _ => "btc.btcSignMessage"
  | btc_btcGetPublicKeys _ => "btc.btcGetPublicKeys"
  | eth_ethSignTx _ => "eth.ethSignTx"
  | eth_ethGetAddress _ => "eth.ethGetAddress"
  | eth_ethSignMessage _ => "eth.ethSignMessage"
  | eth_ethGetPublicKeys _ => "eth.ethGetPublicKeys"
  end.

(** The transport methods called in a trace, in order. *)
Definition transport_calls (tr : list event) : list string :=
  omap (fun e => match e with EvCall m _ => Some m | EvBackend _ => None end) tr.

(** The world after the wallet's own [getAppAndVersion] call. *)
Definition after_query (w : World) (d : Dev) : World :=
  {| dev := d; trace := trace w ++ [EvCall "getAppAndVersion" []] |}.

(** The six signing operations with their messages. *)
Inductive signing_op : Type :=
| BtcGetAddress (msg : BTCMsg)
| BtcSignTx (msg : BTCMsg)
| BtcSignMessage (msg : BTCMsg)
| EthSignTx (msg : ETHMsg)
| EthGetAddress (msg : ETHMsg)
| EthSignMessage (msg : ETHMsg).

Definition run_op (op : signing_op) : W Res :=
  match op with
  | BtcGetAddress msg => btcGetAddress msg
  | BtcSignTx msg => btcSignTx msg
  | BtcSignMessage msg => btcSignMessage msg
  | EthSignTx msg => ethSignTx msg
  | EthGetAddress msg => ethGetAddress msg
  | EthSignMessage msg => ethSignMessage msg
  end.

(** The coin an operation is guarded for. *)
Definition guard_coin (op : signing_op) : option string :=
  match op with
  | BtcGetAddress msg | BtcSignTx msg | BtcSignMessage msg => msg_coin msg
  | EthSignTx _ | EthGetAddress _ | EthSignMessage _ => Some "Ethereum"
  end.

(** The backend call an operation delegates to. *)
Definition backend_of (op : signing_op) : backend_call BTCMsg ETHMsg GetPublicKey :=
  match op with
  | BtcGetAddress msg => btc_btcGetAddress msg
  | BtcSignTx msg => btc_btcSignTx msg
  | BtcSignMessage msg => btc_btcSignMessage msg
  | EthSignTx msg => eth_ethSignTx msg
  | EthGetAddress msg => eth_ethGetAddress msg
  | EthSignMessage msg => eth_ethSignMessage msg
  end.
End WalletRules.

(** ** Collaborators modelled from the specification

    The theorems below hold for every [Core] and every [Env].  The
    instances here give them concrete inputs. *)

(** Modelled from the spec: the script types of [hdwallet-core]
    ([BTCInputScriptType] is not in this file of the repository); the
    glossary names legacy, wrapped-segwit and native-segwit. *)
Inductive SpecScriptType : Type := P2PKH | P2SH_P2WPKH | P2WPKH.

(** Modelled from the spec: [core.slip44ByCoin], whose table is not in
    this file of the repository.  The scenarios use [0x8000003C =
    hardened(60)] for Ethereum and [hardened(0)] for Bitcoin. *)
Definition spec_slip44ByCoin (coin : string) : Z :=
  if String.eqb coin "Ethereum" then 60 else 0.

(** Modelled from the spec: [core.addressNListToBIP32], the
    "canonicalized path string": [m/44'/60'/0'/0/0]. *)
Definition spec_segment (v : value) : string :=
  match v with
  | VNum z =>
    if Z.testbit z 31
    then "/" +:+ js_toString (VNum (z - 0x80000000)) +:+ "'"
    else "/" +:+ js_toString v
  | _ => "/" +:+ js_toString v
  end.

Definition spec_addressNListToBIP32 (path : list value) : string :=
  "m" +:+ String.concat "" (map spec_segment path).

Definition spec_unknown (path : list value) (coin : string)
    (scriptType : option SpecScriptType) : PathDescription.t SpecScriptType :=
  {| PathDescription.verbose := spec_addressNListToBIP32 path;
     PathDescription.coin := coin;
     PathDescription.isKnown := false;
     PathDescription.wholeAccount := None;
     PathDescription.accountIdx := None;
     PathDescription.isPrefork := None;
     PathDescription.scriptType := scriptType |}.

Definition spec_known (accountIdx : Z) (wholeAccount : bool) (coin : string)
    (scriptType : option SpecScriptType) : PathDescription.t SpecScriptType :=
  {| PathDescription.verbose := "Account #" +:+ js_toString (VNum accountIdx);
     PathDescription.coin := coin;
     PathDescription.isKnown := true;
     PathDescription.wholeAccount := Some wholeAccount;
     PathDescription.accountIdx := Some (VNum accountIdx);
     PathDescription.isPrefork := Some false;
     PathDescription.scriptType := scriptType |}.

(** Modelled from the spec: [core.ethDescribePath], the classifier that
    [ethNextAccountPath] consults; it is not in this file of the
    repository.  The spec has one EVM classifier, the rules of its
    section 4.1, written here in the spec's words. *)
Definition spec_classifyPath (path : list value) : PathDescription.t SpecScriptType :=
  match path with
  | [VNum p; VNum c; VNum a; VNum x; VNum y] =>
    if (p =? hardened 44) && (c =? hardened (spec_slip44ByCoin "Ethereum")) && Z.testbit a 31
       && (x =? 0) && (y =? 0)
    then spec_known (Z.land a 0x7fffffff) true "Ethereum" None
    else spec_unknown path "Ethereum" None
  | [VNum p; VNum c; VNum a; VNum x] =>
    if (p =? hardened 44) && (c =? hardened (spec_slip44ByCoin "Ethereum"))
       && (a =? hardened 0)
       && negb (Z.testbit x 31)
    then spec_known x true "Ethereum" None
    else spec_unknown path "Ethereum" None
  | _ => spec_unknown path "Ethereum" None
  end.

(** Modelled from the spec: [core.btcDescribePath], the generic
    classifier for BIP44/49/84 account paths; it is not in this file of
    the repository.  A path is known when it is
    [purpose' / coin' / account'] with purpose 44, 49 or 84, alone or
    followed by two unhardened elements. *)
Definition spec_btcDescribePath (path : list value) (coin : string)
    (scriptType : SpecScriptType) : PathDescription.t SpecScriptType :=
  match path with
  | VNum p :: VNum c :: VNum a :: rest =>
    let purpose_ok := (p =? hardened 44) || (p =? hardened 49) || (p =? hardened 84) in
    let rest_ok :=
      match rest with
      | [] => true
      | [x; y] => negb (bit31 x) && negb (bit31 y)
      | _ => false
      end in
    if purpose_ok && (c =? hardened (spec_slip44ByCoin coin)) && Z.testbit a 31 && rest_ok
    then spec_known (Z.land a 0x7fffffff) (bool_decide (rest = [])) coin (Some scriptType)
    else spec_unknown path coin (Some scriptType)
  | _ => spec_unknown path coin (Some scriptType)
  end.

(** Modelled from the spec: [core.describePath], the generic fallback
    for coins other than Ethereum. *)
Definition spec_describePath (msg : DescribePath.t SpecScriptType)
    : PathDescription.t SpecScriptType :=
  match DescribePath.scriptType msg with
  | Some st => spec_btcDescribePath (DescribePath.path msg) (DescribePath.coin msg) st
  | None => spec_unknown (DescribePath.path msg) (DescribePath.coin msg) None
  end.

(** Modelled from the spec: [core.hardenedPath] and [core.relativePath];
    the data model makes [hardenedPath] the hardened prefix and [relPath]
    the suffix after it, the full path being their concatenation. *)
Fixpoint spec_hardenedPath (path : list value) : list value :=
  match path with
  | v :: rest => if bit31 v then v :: spec_hardenedPath rest else []
  | [] => []
  end.

Fixpoint spec_relativePath (path : list value) : list value :=
  match path with
  | v :: rest => if bit31 v then spec_relativePath rest else path
  | [] => []
  end.

#[global] Instance spec_core : Core SpecScriptType := {
  slip44ByCoin := spec_slip44ByCoin;
  addressNListToBIP32 := spec_addressNListToBIP32;
  core_describePath := spec_describePath;
  btcDescribePath := spec_btcDescribePath;
  ethDescribePath := spec_classifyPath;
  core_hardenedPath := spec_hardenedPath;
  core_relativePath := spec_relativePath;
}.

(** Modelled from the spec: the coin to application-name table of
    [./utils] ([coinToLedgerAppName]) and the supported UTXO coins of
    [./bitcoin]; neither is in this file of the repository.  Scenario 6
    binds Ethereum to the application "Ethereum". *)
Definition spec_coinToLedgerAppName (coin : string) : option string :=
  if String.eqb coin "Bitcoin" then Some "Bitcoin"
  else if String.eqb coin "BitcoinCash" then Some "Bitcoin Cash"
  else if String.eqb coin "Ethereum" then Some "Ethereum"
  else None.

Definition spec_supportedCoins : list string := ["Bitcoin"; "BitcoinCash"].

(** Modelled from the spec: a device that reports its active application
    and a [handleError] that throws on a response without success. *)
#[global] Instance spec_env : Env := {
  Dev := string;
  Exn := string;
  Res := string;
  BTCMsg := option string;
  ETHMsg := unit;
  GetPublicKey := string;
  msg_coin := fun msg => msg;
  coinToLedgerAppName := spec_coinToLedgerAppName;
  supportedCoins := spec_supportedCoins;
  handleError := fun res => if success res then None else Some "transport failure";
  transport_call := fun _ _ app =>
    (inr {| success := true; payload_name := Some app |}, app);
  backend := fun _ app => (inr "done", app);
}.

(** The purpose codes that [btcNextAccountPath] accepts. *)
Definition bip_purpose (v : value) : Prop :=
  v = VNum (hardened 44) \/ v = VNum (hardened 49) \/ v = VNum (hardened 84).

(** ** Concrete inputs *)

(** Scenario 4 of the spec: the first Bitcoin account, its array at
    location 1 of the store. *)
Definition btc_first_account : BTCAccountPath.t SpecScriptType :=
  {| BTCAccountPath.addressNList := 1%positive;
     BTCAccountPath.coin := "Bitcoin";
     BTCAccountPath.scriptType := P2PKH |}.

Definition btc_first_account_heap : gmap positive (list value) :=
  {[ 1%positive :=
       [VNum (hardened 44); VNum (hardened 0); VNum (hardened 0); VNum 0; VNum 0] ]}.

(** The same account path with the largest hardened account index,
    [0xFFFFFFFF = hardened(2^31 - 1)]. *)
Definition btc_last_account_heap : gmap positive (list value) :=
  {[ 1%positive :=
       [VNum (hardened 44); VNum (hardened 0); VNum 0xFFFFFFFF; VNum 0; VNum 0] ]}.

(** An Ethereum account path whose two arrays are at locations 1 and 2. *)
Definition eth_msg : ETHAccountPath.t :=
  {| ETHAccountPath.addressNList := None;
     ETHAccountPath.hardenedPath := 1%positive;
     ETHAccountPath.relPath := 2%positive |}.

Definition eth_heap (hardenedPath relPath : list value) : gmap positive (list value) :=
  <[ 2%positive := relPath ]> {[ 1%positive := hardenedPath ]}.

(** Scenario 5 of the spec: [m/44'/60'/0'] and [0/0]. *)
Definition eth_first_account_heap : gmap positive (list value) :=
  eth_heap [VNum (hardened 44); VNum (hardened 60); VNum (hardened 0)]
           [VNum 0; VNum 0].

(** The largest hardened account index. *)
Definition eth_last_account_heap : gmap positive (list value) :=
  eth_heap [VNum (hardened 44); VNum (hardened 60); VNum 0xFFFFFFFF]
           [VNum 0; VNum 0].

(** The four-element form (scenario 2): [m/44'/60'/0'] and [3]. *)
Definition eth_short_form_heap : gmap positive (list value) :=
  eth_heap [VNum (hardened 44); VNum (hardened 60); VNum (hardened 0)]
           [VNum 3].

(** The combined path of an Ethereum account path in a store. *)
Definition eth_combined (msg : ETHAccountPath.t) (h : gmap positive (list value))
    : list value :=
  (h !!! ETHAccountPath.hardenedPath msg) ++ (h !!! ETHAccountPath.relPath msg).

(** The store and the answer after [a[i] += 1] on the combined array [a]
    and the two calls that split it again: what each of the three
    answering branches of [ethNextAccountPath] computes. *)
Definition resplit {ST : Type} {core : Core ST} (a : positive) (i : nat)
    (addressNList : option positive) (h1 : gmap positive (list value))
    : option ETHAccountPath.t * gmap positive (list value) :=
  let a' := js_incr_at i (h1 !!! a) in
  let h2 := <[a := a']> h1 in
  let hl := fresh (dom h2) in
  let h3 := <[hl := core_hardenedPath (ST := ST) a']> h2 in
  let rl := fresh (dom h3) in
  (Some {| ETHAccountPath.addressNList := addressNList;
           ETHAccountPath.hardenedPath := hl;
           ETHAccountPath.relPath := rl |},
   <[rl := core_relativePath (ST := ST) a']> h3).

(** ** [ledger.ts]: the device management calls of the wallet *)

(** The payload of a [getDeviceInfo] response, which [getFeatures]
    returns whole, and the [version] property that
    [getFirmwareVersion] reads from it. *)
Class DeviceInfo : Type := {
  Payload : Type;
  payload : Response -> Payload;
  version : Payload -> option string;
}.

Section LedgerDevice.
Context {env : Env} {info : DeviceInfo}.

(** [LedgerHDWallet.getFeatures] *)
Definition getFeatures : W Payload :=
  wbind (transport_call_ "getDeviceInfo" [])
    (fun res => wbind (handleError_ res) (fun _ => wret (payload res))).

(** [LedgerHDWallet.getFirmwareVersion] *)
Definition getFirmwareVersion : W (option string) :=
  wbind getFeatures (fun features => wret (version features)).

(** [LedgerHDWallet.openApp] *)
Definition openApp (appName : string) : W unit :=
  wbind (transport_call_ "openApp" [appName]) (fun res => handleError_ res).

End LedgerDevice.

Section GuardRules.
Context {env : Env}.

(** [!coin]: no coin was given. *)
Definition no_coin (coin : option string) : Prop :=
  coin = None \/ coin = Some "".

(** [!appName]: the coin has no application name. *)
Definition unbound (coin : string) : Prop :=
  coinToLedgerAppName coin = None \/ coinToLedgerAppName coin = Some "".

End GuardRules.

(** Every element of the path is a number of 32 bits. *)
Definition uint32_path (p : list value) : Prop :=
  Forall (fun v => exists z, v = VNum z /\ 0 <= z < 2 ^ 32) p.

(** ** Further collaborators for concrete runs *)

(** A core library whose Ethereum classifier applies the generic
    BIP44 rule of [spec_btcDescribePath]: a five-element path is then
    known without being a whole account, which reaches the branches of
    [ethNextAccountPath] that the classifier of [spec_core] never takes. *)
Definition bip44_core : Core SpecScriptType := {|
  slip44ByCoin := spec_slip44ByCoin;
  addressNListToBIP32 := spec_addressNListToBIP32;
  core_describePath := spec_describePath;
  btcDescribePath := spec_btcDescribePath;
  ethDescribePath := fun path => spec_btcDescribePath path "Ethereum" P2PKH;
  core_hardenedPath := spec_hardenedPath;
  core_relativePath := spec_relativePath;
|}.

(** A device that can fail: [None] is a disconnected device, on which
    [transport.call] rejects; a device with no application open answers
    without success, and [handleError] throws on that answer. *)
Definition flaky_env : Env := {|
  Dev := option string;
  Exn := string;
  Res := string;
  BTCMsg := option string;
  ETHMsg := unit;
  GetPublicKey := string;
  msg_coin := fun msg => msg;
  coinToLedgerAppName := spec_coinToLedgerAppName;
  supportedCoins := spec_supportedCoins;
  handleError := fun res => if success res then None else Some "device error";
  transport_call := fun _ _ d =>
    match d with
    | None => (inl "disconnected", None)
    | Some app =>
      if String.eqb app ""
      then (inr {| success := false; payload_name := None |}, d)
      else (inr {| success := true; payload_name := Some app |}, d)
    end;
  backend := fun _ d => (inr "done", d);
|}.

(** The device information of the concrete runs: the payload is the
    reported name, which also stands for the version. *)
Definition spec_info : DeviceInfo := {|
  Payload := option string;
  payload := payload_name;
  version := fun p => p;
|}.

(** * Properties *)

(** ** Bit-level facts about the classifier's tests *)

Lemma ToInt32_congr (z : Z) : ToInt32 (VNum z) mod 2 ^ 32 = z mod 2 ^ 32.
Proof.
  unfold ToInt32.
  rewrite Zminus_mod, Zmod_mod, <- Zminus_mod.
  f_equal. lia.
Qed.

Lemma ToInt32_bits_low (z : Z) (n : Z) :
  0 <= n < 32 -> Z.testbit (ToInt32 (VNum z)) n = Z.testbit z n.
Proof.
  intros Hn.
  rewrite <- (Z.mod_pow2_bits_low (ToInt32 (VNum z)) 32 n) by lia.
  rewrite ToInt32_congr.
  apply Z.mod_pow2_bits_low. lia.
Qed.

Lemma minus_two31_bits (n : Z) :
  0 <= n -> Z.testbit (- 2 ^ 31) n = (31 <=? n).
Proof.
  intros Hn.
  replace (- 2 ^ 31) with (Z.lnot (Z.ones 31)) by reflexivity.
  rewrite Z.lnot_spec by lia.
  destruct (Z.leb_spec 31 n).
  - rewrite Z.ones_spec_high by lia. reflexivity.
  - rewrite Z.ones_spec_low by lia. reflexivity.
Qed.

Lemma sign_mask_value (z : Z) :
  js_ushr0 (js_band (VNum z) (VNum 0x80000000)) =
  VNum (if Z.testbit z 31 then 0x80000000 else 0).
Proof.
  unfold js_ushr0, js_band, ToUint32. f_equal.
  change (ToInt32 (VNum 0x80000000)) with (- 2 ^ 31).
  apply Z.bits_inj'. intros n Hn.
  destruct (Z.ltb_spec n 32) as [Hlt | Hge].
  - rewrite Z.mod_pow2_bits_low by lia.
    rewrite Z.land_spec, ToInt32_bits_low, minus_two31_bits by lia.
    destruct (Z.leb_spec 31 n) as [H31 | H31].
    + replace n with 31 by lia. rewrite andb_true_r.
      destruct (Z.testbit z 31); reflexivity.
    + rewrite andb_false_r.
      destruct (Z.testbit z 31).
      * change 0x80000000 with (2 ^ 31). rewrite Z.pow2_bits_false by lia. reflexivity.
      * rewrite Z.bits_0. reflexivity.
  - rewrite Z.mod_pow2_bits_high by lia.
    destruct (Z.testbit z 31).
    + change 0x80000000 with (2 ^ 31). rewrite Z.pow2_bits_false by lia. reflexivity.
    + rewrite Z.bits_0. reflexivity.
Qed.

(** The classifier's test [(x & 0x80000000) >>> 0 === 0x80000000] reads
    bit 31. *)
Lemma sign_test (a : value) :
  js_seq (js_ushr0 (js_band a (VNum 0x80000000))) (VNum 0x80000000) = bit31 a.
Proof.
  destruct a as [z | |]; try reflexivity.
  rewrite sign_mask_value. cbn [bit31].
  destruct (Z.testbit z 31); reflexivity.
Qed.

Lemma index_mask_value (z : Z) :
  js_ushr0 (js_band (VNum z) (VNum 0x7fffffff)) = VNum (z mod 2 ^ 31).
Proof.
  unfold js_ushr0, js_band, ToUint32. f_equal.
  change (ToInt32 (VNum 0x7fffffff)) with (Z.ones 31).
  rewrite Z.land_ones by lia.
  rewrite Z.mod_small by (pose proof (Z.mod_pos_bound (ToInt32 (VNum z)) (2 ^ 31)); lia).
  assert (Hdiv : (2 ^ 31 | 2 ^ 32)) by (exists 2; reflexivity).
  rewrite <- (Z.mod_mod_divide (ToInt32 (VNum z)) (2 ^ 32) (2 ^ 31)) by exact Hdiv.
  rewrite ToInt32_congr.
  apply Z.mod_mod_divide. exact Hdiv.
Qed.

(** ** The classifier follows the rules of the scheme *)

Lemma js_seq_num (a : value) (x : Z) : js_seq a (VNum x) = true <-> a = VNum x.
Proof.
  destruct a as [z | |]; simpl; split; try discriminate.
  - intros E. apply Z.eqb_eq in E. congruence.
  - intros E. injection E as ->. apply Z.eqb_refl.
Qed.

Lemma js_sneq_num (a : value) (x : Z) :
  js_sneq a (VNum x) = bool_decide (a <> VNum x).
Proof.
  unfold js_sneq. destruct (js_seq a (VNum x)) eqn:E.
  - apply js_seq_num in E. symmetry. apply bool_decide_eq_false. tauto.
  - symmetry. apply bool_decide_eq_true. intros Ha.
    apply js_seq_num in Ha. congruence.
Qed.

Lemma sign_test_neg (a : value) :
  js_sneq (js_ushr0 (js_band a (VNum 0x80000000))) (VNum 0x80000000) = negb (bit31 a).
Proof. unfold js_sneq. f_equal. apply sign_test. Qed.

Lemma index_mask (a : value) :
  js_ushr0 (js_band a (VNum 0x7fffffff)) = unhardened a.
Proof.
  destruct a as [z | |]; try reflexivity. apply index_mask_value.
Qed.

Lemma hardened_bit31 (i : Z) : 0 <= i < 2 ^ 31 -> Z.testbit (hardened i) 31 = true.
Proof.
  intros Hi. apply Z.testbit_true; [lia |].
  unfold hardened. replace (0x80000000 + i) with (i + 1 * 2 ^ 31) by lia.
  rewrite Z.div_add by lia. rewrite Z.div_small by lia. reflexivity.
Qed.

Lemma hardened_mod (i : Z) : 0 <= i < 2 ^ 31 -> hardened i mod 2 ^ 31 = i.
Proof.
  intros Hi. unfold hardened.
  replace (0x80000000 + i) with (i + 1 * 2 ^ 31) by lia.
  rewrite Z.mod_add by lia. apply Z.mod_small. lia.
Qed.

Section Classifier.
Context {ST : Type} {core : Core ST}.

(** The code of [ethDescribeLedgerPath], test by test, decides exactly
    the rules of the scheme. *)
Lemma ethDescribeLedgerPath_rules (p : list value) :
  ethDescribeLedgerPath p = classify_rules p.
Proof.
  unfold ethDescribeLedgerPath.
  fold (unknown_description p).
  destruct p as [| p0 [| p1 [| p2 [| p3 [| p4 [| p5 rest]]]]]]; try reflexivity.
  - (* four elements *)
    cbn [length Nat.eqb negb andb js_index lookup list_lookup].
    rewrite sign_test_neg, sign_test, !js_sneq_num.
    unfold classify_rules, hardened.
    change (2147483648 + 0) with 2147483648.
    repeat case_bool_decide; destruct (bit31 p2) eqn:E2;
      destruct (bit31 p3) eqn:E3; cbn [negb];
      case_decide; try reflexivity; try tauto;
      try (exfalso; intuition discriminate);
      try (exfalso; subst p2; vm_compute in E2; discriminate).
  - (* five elements *)
    cbn [length Nat.eqb negb andb js_index lookup list_lookup].
    rewrite sign_test_neg, index_mask, !js_sneq_num.
    unfold classify_rules, hardened.
    repeat case_bool_decide; destruct (bit31 p2) eqn:E2; cbn [negb];
      case_decide; try reflexivity; try tauto;
      try (exfalso; intuition discriminate).
Qed.


Lemma classify_account_path (i : Z) :
  0 <= i < 2 ^ 31 ->
  ethDescribeLedgerPath (eth_account_path i) = known_description (VNum i).
Proof.
  intros Hi. rewrite ethDescribeLedgerPath_rules.
  unfold eth_account_path, classify_rules.
  case_decide as Hrules.
  - cbn [unhardened]. rewrite hardened_mod by exact Hi. reflexivity.
  - exfalso. apply Hrules. repeat split; try reflexivity.
    cbn [bit31]. apply hardened_bit31. exact Hi.
Qed.

(** C1 (amended).  For every account index [i] below [2^31], the path
    [[hardened(44), hardened(slip44(Ethereum)), hardened(i), 0, 0]] is
    classified as known, whole account, with account index [i] (the
    masked form of element 2), coin "Ethereum", not prefork, and the
    text "Ethereum Account #" followed by the decimal form of [i]. *)
Theorem ethDescribeLedgerPath_account_path (i : Z) :
  0 <= i < 2 ^ 31 ->
  let d := ethDescribeLedgerPath (eth_account_path i) in
  PathDescription.isKnown d = true
  /\ PathDescription.wholeAccount d = Some true
  /\ PathDescription.accountIdx d = Some (VNum i)
  /\ PathDescription.coin d = "Ethereum"
  /\ PathDescription.isPrefork d = Some false
  /\ PathDescription.verbose d = "Ethereum Account #" +:+ js_toString (VNum i).
Proof.
  intros Hi d. subst d. rewrite (classify_account_path i Hi).
  repeat split; reflexivity.
Qed.

(** C2.  For a path of four elements that starts with [hardened(44)]
    and [hardened(slip44(Ethereum))], the classifier answers known,
    whole account, account index [p[3]] exactly when [p[2]] is the
    literal [0x80000000] and bit 31 of [p[3]] is clear; in every other
    case it answers unknown. *)
Theorem ethDescribeLedgerPath_short_form (a b : value) :
  let p := [VNum (hardened 44); VNum (hardened (slip44ByCoin "Ethereum")); a; b] in
  let d := ethDescribeLedgerPath p in
  ((PathDescription.isKnown d = true
    /\ PathDescription.wholeAccount d = Some true
    /\ PathDescription.accountIdx d = Some b)
   <-> (a = VNum 0x80000000 /\ bit31 b = false))
  /\ (~ (a = VNum 0x80000000 /\ bit31 b = false) ->
      PathDescription.isKnown d = false).
Proof.
  intros p d. subst p d. rewrite ethDescribeLedgerPath_rules.
  unfold classify_rules. change (hardened 0) with 0x80000000.
  case_decide as Hrules.
  - split.
    + split; [intros _; tauto | intros _; repeat split; reflexivity].
    + intros Hn. exfalso. tauto.
  - split.
    + split; [intros [Hk _]; discriminate Hk | intros Hc; exfalso; tauto].
    + intros _. reflexivity.
Qed.

Lemma classify_rules_violation (p : list value) :
  violates p -> classify_rules p = unknown_description p.
Proof.
  intros Hv. unfold classify_rules.
  destruct p as [| p0 [| p1 [| p2 [| p3 [| p4 [| p5 rest]]]]]]; try reflexivity.
  - case_decide as Hrules; [exfalso | reflexivity].
    destruct Hrules as (H0 & H1 & H2 & H3).
    destruct Hv as [Hl4 _ | Hp | Hc | Hh | Hl5 _ | _ [Hs | Hs]];
      cbn [js_index lookup list_lookup length] in *; try congruence.
    subst p2. vm_compute in Hh. discriminate Hh.
  - case_decide as Hrules; [exfalso | reflexivity].
    destruct Hrules as (H0 & H1 & H2 & H3 & H4).
    destruct Hv as [_ Hl5 | Hp | Hc | Hh | _ [Hs | Hs] | Hl4 _];
      cbn [js_index lookup list_lookup length] in *; try congruence.
Qed.

(** C3.  A path that breaks a structural rule of the EVM scheme (a
    length other than 4 or 5, a wrong purpose or coin type, an account
    element that is not hardened, a five-element path that does not end
    in [0, 0], a four-element path whose element 2 is not
    [hardened(0)] or whose element 3 is hardened) is classified as
    unknown, with coin "Ethereum" and the canonical BIP32 text of the
    path. *)
Theorem ethDescribeLedgerPath_violation (p : list value) :
  violates p ->
  let d := ethDescribeLedgerPath p in
  PathDescription.isKnown d = false
  /\ PathDescription.coin d = "Ethereum"
  /\ PathDescription.verbose d = addressNListToBIP32 p
  /\ d = unknown_description p.
Proof.
  intros Hv d. subst d.
  rewrite ethDescribeLedgerPath_rules, (classify_rules_violation p Hv).
  repeat split; reflexivity.
Qed.

(** X1.  The rules are complete: a path is classified as known exactly
    when it breaks none of them. *)
Lemma ethDescribeLedgerPath_known_iff (p : list value) :
  PathDescription.isKnown (ethDescribeLedgerPath p) = true <-> ~ violates p.
Proof.
  split.
  - intros Hk Hv. rewrite ethDescribeLedgerPath_rules, (classify_rules_violation p Hv) in Hk.
    discriminate Hk.
  - intros Hn. rewrite ethDescribeLedgerPath_rules. unfold classify_rules.
    destruct p as [| p0 [| p1 [| p2 [| p3 [| p4 [| p5 rest]]]]]];
      try (exfalso; apply Hn; apply wrong_length; cbn [length]; lia).
    + case_decide as Hrules; [reflexivity | exfalso].
      destruct (decide (p0 = VNum (hardened 44))) as [E0 | N0];
        [| apply Hn, wrong_purpose; exact N0].
      destruct (decide (p1 = VNum (hardened (slip44ByCoin "Ethereum")))) as [E1 | N1];
        [| apply Hn, wrong_coin_type; exact N1].
      apply Hn, wrong_short_form; [reflexivity |].
      cbn [js_index lookup list_lookup].
      destruct (decide (p2 = VNum (hardened 0))) as [E2 | N2]; [| left; exact N2].
      destruct (bit31 p3) eqn:E3; [right; reflexivity | tauto].
    + case_decide as Hrules; [reflexivity | exfalso].
      destruct (decide (p0 = VNum (hardened 44))) as [E0 | N0];
        [| apply Hn, wrong_purpose; exact N0].
      destruct (decide (p1 = VNum (hardened (slip44ByCoin "Ethereum")))) as [E1 | N1];
        [| apply Hn, wrong_coin_type; exact N1].
      destruct (bit31 p2) eqn:E2; [| apply Hn, account_not_hardened; exact E2].
      apply Hn, wrong_suffix; [reflexivity |].
      cbn [js_index lookup list_lookup].
      destruct (decide (p3 = VNum 0)) as [E3 | N3]; [| left; exact N3].
      destruct (decide (p4 = VNum 0)) as [E4 | N4]; [| right; exact N4].
      tauto.
Qed.

End Classifier.

Lemma lower_ascii_letter (c l : ascii) :
  In l (list_ascii_of_string "ethrum") ->
  Ascii.eqb (lower_ascii c) l = Ascii.eqb c l || Ascii.eqb c (upper_of l).
Proof.
  intros Hl.
  destruct c as [[] [] [] [] [] [] [] []];
    repeat (destruct Hl as [<- | Hl]; [vm_compute; reflexivity |]);
    destruct Hl.
Qed.

Lemma toLowerCase_spells (word : string) :
  Forall (fun l => In l (list_ascii_of_string "ethrum")) (list_ascii_of_string word) ->
  forall s, String.eqb (toLowerCase s) word = spells word s.
Proof.
  induction word as [| l word IH]; intros Hw s.
  - destruct s; reflexivity.
  - apply Forall_cons in Hw as [Hl Hw].
    destruct s as [| c s]; [reflexivity |].
    cbn [toLowerCase spells String.eqb].
    rewrite <- (lower_ascii_letter c l Hl), <- (IH Hw s).
    destruct (Ascii.eqb (lower_ascii c) l); reflexivity.
Qed.

Section Routing.
Context {ST : Type} {core : Core ST}.

(** C10.  [describePath] takes the Ledger classifier exactly when the
    coin spells "ethereum" with each letter in either case, so
    "Ethereum", "ETHEREUM" and "ethereum" all take it; every other
    coin goes to the generic classifier of the core library. *)
Theorem describePath_routing (msg : DescribePath.t ST) :
  describePath msg =
    (if spells "ethereum" (DescribePath.coin msg)
     then ethDescribeLedgerPath (DescribePath.path msg)
     else core_describePath msg)
  /\ spells "ethereum" "Ethereum" = true
  /\ spells "ethereum" "ETHEREUM" = true
  /\ spells "ethereum" "ethereum" = true
  /\ spells "ethereum" "Bitcoin" = false.
Proof.
  split; [| repeat split; reflexivity].
  unfold describePath.
  rewrite toLowerCase_spells; [reflexivity |].
  repeat constructor; cbn; tauto.
Qed.
End Routing.

(** ** The account path enumerators and the store *)

Lemma fresh_lookup_None (h : gmap positive (list value)) :
  h !! fresh (dom h) = None.
Proof. apply not_elem_of_dom. apply is_fresh. Qed.

Lemma fresh_ne_allocated (h : gmap positive (list value)) (l : positive) :
  is_Some (h !! l) -> fresh (dom h) <> l.
Proof.
  intros Hl E. rewrite <- E, fresh_lookup_None in Hl.
  destruct Hl as [x Hx]. discriminate Hx.
Qed.

Lemma js_incr_at_number (i : nat) (a : list value) (z : Z) :
  a !! i = Some (VNum z) -> safe_integer z ->
  js_incr_at i a = <[i := VNum (z + 1)]> a.
Proof. intros Hi _. unfold js_incr_at. rewrite Hi. reflexivity. Qed.

Lemma bit31_range (z : Z) : 2 ^ 31 <= z < 2 ^ 32 -> bit31 (VNum z) = true.
Proof.
  intros Hz. replace z with (hardened (z - 2 ^ 31)) by (unfold hardened; lia).
  apply hardened_bit31. lia.
Qed.

Lemma bip_purpose_test (v : value) :
  js_seq v (VNum (0x80000000 + 44)) || js_seq v (VNum (0x80000000 + 49))
    || js_seq v (VNum (0x80000000 + 84)) = bool_decide (bip_purpose v).
Proof.
  unfold bip_purpose, hardened.
  destruct (js_seq v (VNum (0x80000000 + 44))) eqn:E44;
    destruct (js_seq v (VNum (0x80000000 + 49))) eqn:E49;
    destruct (js_seq v (VNum (0x80000000 + 84))) eqn:E84;
    cbn [orb]; symmetry;
    try (apply bool_decide_eq_true; rewrite <- !js_seq_num; tauto).
  apply bool_decide_eq_false. rewrite <- !js_seq_num.
  rewrite E44, E49, E84. intuition discriminate.
Qed.

Section Enumerators.
Context {ST : Type} {core : Core ST}.

(** C5 (amended).  [btcNextAccountPath] classifies the path first and
    answers [undefined] when it is unknown, and also when the first
    element is none of [hardened(44)], [hardened(49)], [hardened(84)];
    in both cases the store is untouched.  Otherwise it answers an
    object with the coin and script type of [msg] and the array of
    [msg], in which element 2, a safe integer [z] (below [2^53] in
    absolute value), has become [z + 1]; the new element is again a
    hardened 32-bit value when [z] is hardened and below [0xFFFFFFFF]. *)
Theorem btcNextAccountPath_spec
    (msg : BTCAccountPath.t ST) (h : gmap positive (list value)) (path : list value) :
  h !! BTCAccountPath.addressNList msg = Some path ->
  let description :=
    btcDescribePath path (BTCAccountPath.coin msg) (BTCAccountPath.scriptType msg) in
  let r := btcNextAccountPath msg h in
  (PathDescription.isKnown description = false -> r = (None, h))
  /\ (PathDescription.isKnown description = true ->
      ~ bip_purpose (js_index path 0) -> r = (None, h))
  /\ (PathDescription.isKnown description = true ->
      bip_purpose (js_index path 0) ->
      r = (Some {| BTCAccountPath.addressNList := BTCAccountPath.addressNList msg;
                   BTCAccountPath.coin := BTCAccountPath.coin msg;
                   BTCAccountPath.scriptType := BTCAccountPath.scriptType msg |},
           <[BTCAccountPath.addressNList msg := js_incr_at 2 path]> h)
      /\ forall z : Z,
          path !! 2%nat = Some (VNum z) ->
          safe_integer z ->
          js_incr_at 2 path = <[2%nat := VNum (z + 1)]> path
          /\ (2 ^ 31 <= z < 0xFFFFFFFF ->
              2 ^ 31 <= z + 1 < 2 ^ 32 /\ bit31 (VNum (z + 1)) = true)).
Proof.
  intros Hpath description r. subst description r.
  cbv beta iota zeta delta [btcNextAccountPath bind read incr ret].
  rewrite (lookup_total_correct _ _ _ Hpath).
  destruct (PathDescription.isKnown _) eqn:Hk; cbn [negb]; cbv beta.
  - rewrite (lookup_total_correct _ _ _ Hpath), bip_purpose_test.
    split; [intros Hf; discriminate Hf |].
    split.
    + intros _ Hp. rewrite bool_decide_eq_false_2 by exact Hp. reflexivity.
    + intros _ Hp. rewrite bool_decide_eq_true_2 by exact Hp.
      rewrite (lookup_total_correct _ _ _ Hpath).
      split; [reflexivity |].
      intros z Hz Hsafe. split; [apply js_incr_at_number; assumption |].
      intros Hr. split; [lia | apply bit31_range; lia].
  - split; [reflexivity |].
    split; intros Hf; discriminate Hf.
Qed.

(** The run of [ethNextAccountPath], branch by branch. *)
Lemma ethNextAccountPath_run (msg : ETHAccountPath.t) (h : gmap positive (list value)) :
  ethNextAccountPath msg h =
    let a := fresh (dom h) in
    let l := eth_combined msg h in
    let h1 := <[a := l]> h in
    let d := ethDescribePath (ST := ST) l in
    if negb (PathDescription.isKnown d) then (None, h1)
    else if truthy (PathDescription.wholeAccount d) then resplit a 2 (Some a) h1
    else if (length l =? 5)%nat then resplit a 2 (ETHAccountPath.addressNList msg) h1
    else if (length l =? 4)%nat then resplit a 3 (ETHAccountPath.addressNList msg) h1
    else (None, h1).
Proof.
  cbv beta iota zeta delta [ethNextAccountPath bind read new_array incr ret
                            resplit eth_combined].
  rewrite lookup_total_insert_eq.
  repeat match goal with
         | |- context [if ?c then _ else _] => destruct c
         end;
    rewrite ?lookup_total_insert_eq; reflexivity.
Qed.

Lemma resplit_lookup (a : positive) (i : nat) (o : option positive)
    (h1 : gmap positive (list value)) (l : positive) :
  is_Some (h1 !! l) -> a <> l -> snd (resplit a i o h1) !! l = h1 !! l.
Proof.
  intros Hl Ha. cbv beta iota zeta delta [resplit snd].
  set (a' := js_incr_at i (h1 !!! a)).
  set (h2 := <[a := a']> h1).
  set (h3 := <[fresh (dom h2) := core_hardenedPath a']> h2).
  assert (E2 : h2 !! l = h1 !! l) by (apply lookup_insert_ne; exact Ha).
  assert (E3 : h3 !! l = h1 !! l).
  { unfold h3. rewrite lookup_insert_ne; [exact E2 |].
    apply fresh_ne_allocated. rewrite E2. exact Hl. }
  rewrite lookup_insert_ne; [exact E3 |].
  apply fresh_ne_allocated. rewrite E3. exact Hl.
Qed.

Lemma resplit_result (a : positive) (i : nat) (o : option positive)
    (h1 : gmap positive (list value)) :
  exists next h',
    resplit a i o h1 = (Some next, h')
    /\ ETHAccountPath.addressNList next = o
    /\ h' !! ETHAccountPath.hardenedPath next
       = Some (core_hardenedPath (js_incr_at i (h1 !!! a)))
    /\ h' !! ETHAccountPath.relPath next
       = Some (core_relativePath (js_incr_at i (h1 !!! a)))
    /\ h1 !! ETHAccountPath.hardenedPath next = None
    /\ h1 !! ETHAccountPath.relPath next = None.
Proof.
  cbv beta iota zeta delta [resplit].
  set (a' := js_incr_at i (h1 !!! a)).
  set (h2 := <[a := a']> h1).
  set (hl := fresh (dom h2)).
  set (h3 := <[hl := core_hardenedPath a']> h2).
  set (rl := fresh (dom h3)).
  assert (F2 : h2 !! hl = None) by apply fresh_lookup_None.
  assert (F3 : h3 !! rl = None) by apply fresh_lookup_None.
  assert (Hne : hl <> rl).
  { intros E. rewrite <- E in F3. unfold h3 in F3.
    rewrite lookup_insert_eq in F3. discriminate F3. }
  eexists _, _. split; [reflexivity |].
  cbn [ETHAccountPath.addressNList ETHAccountPath.hardenedPath ETHAccountPath.relPath].
  split; [reflexivity |].
  split; [rewrite lookup_insert_ne by (intros E; apply Hne; symmetry; exact E);
          apply lookup_insert_eq |].
  split; [apply lookup_insert_eq |].
  split.
  - unfold h2 in F2. apply lookup_insert_None in F2. tauto.
  - unfold h3, h2 in F3. apply lookup_insert_None in F3 as [F3 _].
    apply lookup_insert_None in F3. tauto.
Qed.

(** What [ethNextAccountPath] leaves in the store: the arrays that
    existed before the call, those of [msg] among them, are unchanged. *)
Lemma ethNextAccountPath_frame
    (msg : ETHAccountPath.t) (h : gmap positive (list value)) (l : positive) :
  is_Some (h !! l) -> snd (ethNextAccountPath msg h) !! l = h !! l.
Proof.
  intros Hl. rewrite ethNextAccountPath_run. cbv zeta.
  pose proof (fresh_ne_allocated h l Hl) as Ha.
  assert (E1 : <[fresh (dom h) := eth_combined msg h]> h !! l = h !! l)
    by (apply lookup_insert_ne; exact Ha).
  repeat match goal with
         | |- context [if ?c then _ else _] => destruct c
         end;
    try (cbn [snd]; exact E1);
    (rewrite resplit_lookup; [exact E1 | rewrite E1; exact Hl | exact Ha]).
Qed.

Lemma js_incr_at_account (i : Z) :
  safe_integer (hardened i) ->
  js_incr_at 2 (eth_account_path i) = eth_account_path (i + 1).
Proof.
  intros _. unfold eth_account_path, js_incr_at. cbn [lookup list_lookup insert list_insert js_add].
  do 3 f_equal. unfold hardened. f_equal. lia.
Qed.

(** C6 (amended).  When the combined path of [msg] is classified as
    known and whole account, [ethNextAccountPath] answers an object
    whose two arrays are new and hold the split, computed again by the
    core library, of the combined path with element 2 plus 1.  When the
    combined path is the five-element account path of index [i] and
    [i] is below [2^31 - 1], the new combined path is the account path
    of index [i + 1], and if the two halves of the split concatenate to
    it, classifying the concatenation of the answer gives account
    index [i + 1], one more than that of [msg]. *)
Theorem ethNextAccountPath_whole_account
    (msg : ETHAccountPath.t) (h : gmap positive (list value)) (hp rp : list value) :
  h !! ETHAccountPath.hardenedPath msg = Some hp ->
  h !! ETHAccountPath.relPath msg = Some rp ->
  let description := ethDescribePath (ST := ST) (hp ++ rp) in
  PathDescription.isKnown description = true ->
  PathDescription.wholeAccount description = Some true ->
  let a' := js_incr_at 2 (hp ++ rp) in
  exists next h',
    ethNextAccountPath msg h = (Some next, h')
    /\ h' !! ETHAccountPath.hardenedPath next = Some (core_hardenedPath a')
    /\ h' !! ETHAccountPath.relPath next = Some (core_relativePath a')
    /\ h !! ETHAccountPath.hardenedPath next = None
    /\ h !! ETHAccountPath.relPath next = None
    /\ forall i : Z,
        0 <= i < 2 ^ 31 - 1 ->
        (hp ++ rp) = eth_account_path i ->
        a' = eth_account_path (i + 1)
        /\ PathDescription.accountIdx (ethDescribeLedgerPath (hp ++ rp))
           = Some (VNum i)
        /\ (core_hardenedPath a' ++ core_relativePath a' = a' ->
            PathDescription.accountIdx
              (ethDescribeLedgerPath (eth_combined next h'))
            = Some (VNum (i + 1))).
Proof.
  intros Hhp Hrp description Hknown Hwhole a'.
  rewrite ethNextAccountPath_run. cbv zeta.
  assert (Hl : eth_combined msg h = (hp ++ rp)).
  { unfold eth_combined.
    rewrite (lookup_total_correct _ _ _ Hhp), (lookup_total_correct _ _ _ Hrp).
    reflexivity. }
  rewrite Hl. fold description. rewrite Hknown, Hwhole. cbn [negb truthy].
  destruct (resplit_result (fresh (dom h)) 2 (Some (fresh (dom h)))
              (<[fresh (dom h) := hp ++ rp]> h))
    as (next & h' & Hrun & _ & Hh & Hr & Fh & Fr).
  rewrite lookup_total_insert_eq in Hh, Hr. fold a' in Hh, Hr.
  exists next, h'. split; [exact Hrun |].
  split; [exact Hh |]. split; [exact Hr |].
  apply lookup_insert_None in Fh as [Fh _].
  apply lookup_insert_None in Fr as [Fr _].
  split; [exact Fh |]. split; [exact Fr |].
  intros i Hi Hform.
  assert (Ha' : a' = eth_account_path (i + 1))
    by (unfold a'; rewrite Hform; apply js_incr_at_account;
        unfold safe_integer, hardened; lia).
  split; [exact Ha' |].
  split.
  - rewrite Hform, classify_account_path by lia. reflexivity.
  - intros Hsplit. unfold eth_combined.
    rewrite (lookup_total_correct _ _ _ Hh), (lookup_total_correct _ _ _ Hr).
    rewrite Hsplit, Ha', classify_account_path by lia. reflexivity.
Qed.

End Enumerators.

(** ** The theorems at concrete inputs *)

Lemma ethDescribeLedgerPath_account_path_witness :
  0 <= 7 < 2 ^ 31
  /\ let d := ethDescribeLedgerPath (core := spec_core) (eth_account_path 7) in
     PathDescription.isKnown d = true
     /\ PathDescription.wholeAccount d = Some true
     /\ PathDescription.accountIdx d = Some (VNum 7)
     /\ PathDescription.coin d = "Ethereum"
     /\ PathDescription.isPrefork d = Some false
     /\ PathDescription.verbose d = "Ethereum Account #" +:+ js_toString (VNum 7).
Proof.
  split; [lia |].
  apply (ethDescribeLedgerPath_account_path (core := spec_core) 7). lia.
Defined.

(** C1, as stated, fails on scenario 1 of the spec: the text of the
    description starts with "Ethereum Account #", not with "Account #". *)
Lemma ethDescribeLedgerPath_verbose_counterexample :
  let p := [VNum 0x8000002C; VNum 0x8000003C; VNum 0x80000001; VNum 0; VNum 0] in
  let d := ethDescribeLedgerPath (core := spec_core) p in
  p = eth_account_path (core := spec_core) 1
  /\ PathDescription.isKnown d = true
  /\ PathDescription.accountIdx d = Some (VNum 1)
  /\ PathDescription.verbose d = "Ethereum Account #1"
  /\ (PathDescription.verbose d = "Account #" +:+ js_toString (VNum 1) -> False).
Proof.
  cbv zeta. repeat split; try reflexivity.
  intros E. vm_compute in E. discriminate E.
Qed.

Lemma ethDescribeLedgerPath_violation_witness :
  let p := [VNum 0x8000002C; VNum 0x8000003C; VNum 3; VNum 0; VNum 0] in
  violates (core := spec_core) p
  /\ let d := ethDescribeLedgerPath (core := spec_core) p in
     PathDescription.isKnown d = false
     /\ PathDescription.coin d = "Ethereum"
     /\ PathDescription.verbose d = addressNListToBIP32 p
     /\ d = unknown_description p.
Proof.
  assert (Hv : violates (core := spec_core)
                 [VNum 0x8000002C; VNum 0x8000003C; VNum 3; VNum 0; VNum 0])
    by (apply account_not_hardened; reflexivity).
  split; [exact Hv |].
  exact (ethDescribeLedgerPath_violation (core := spec_core) _ Hv).
Defined.

(** C4.  On scenario 4 of the spec [btcNextAccountPath] writes to the
    array of its argument: after the call the array that [msg] holds has
    element 2 equal to [hardened(1)], and the answer holds the same array
    reference as [msg]. *)
Theorem btcNextAccountPath_mutates_input :
  let msg := btc_first_account in
  let h := btc_first_account_heap in
  let r := btcNextAccountPath (core := spec_core) msg h in
  h !! BTCAccountPath.addressNList msg
    = Some [VNum (hardened 44); VNum (hardened 0); VNum (hardened 0); VNum 0; VNum 0]
  /\ snd r !! BTCAccountPath.addressNList msg
    = Some [VNum (hardened 44); VNum (hardened 0); VNum (hardened 1); VNum 0; VNum 0]
  /\ fst r = Some msg
  /\ (snd r !! BTCAccountPath.addressNList msg = h !! BTCAccountPath.addressNList msg
      -> False).
Proof.
  cbv zeta. repeat split; try (vm_compute; reflexivity).
  intros E. vm_compute in E. discriminate E.
Qed.

Lemma btcNextAccountPath_spec_witness :
  let msg := btc_first_account in
  let h := btc_first_account_heap in
  let path := [VNum (hardened 44); VNum (hardened 0); VNum (hardened 0); VNum 0; VNum 0] in
  h !! BTCAccountPath.addressNList msg = Some path
  /\ PathDescription.isKnown (spec_btcDescribePath path "Bitcoin" P2PKH) = true
  /\ bip_purpose (js_index path 0)
  /\ btcNextAccountPath (core := spec_core) msg h
     = (Some msg, <[1%positive := js_incr_at 2 path]> h)
  /\ safe_integer (hardened 0)
  /\ js_incr_at 2 path = <[2%nat := VNum (hardened 0 + 1)]> path
  /\ bit31 (VNum (hardened 0 + 1)) = true.
Proof.
  cbv zeta.
  assert (Hsafe : safe_integer (hardened 0)) by (unfold safe_integer, hardened; lia).
  pose proof (btcNextAccountPath_spec (core := spec_core) btc_first_account
                btc_first_account_heap
                [VNum (hardened 44); VNum (hardened 0); VNum (hardened 0); VNum 0; VNum 0]
                eq_refl) as (_ & _ & Hnext).
  assert (Hp : bip_purpose (js_index
      [VNum (hardened 44); VNum (hardened 0); VNum (hardened 0); VNum 0; VNum 0] 0))
    by (left; reflexivity).
  destruct (Hnext eq_refl Hp) as [Hrun Hz].
  destruct (Hz (hardened 0) eq_refl Hsafe) as [Hincr Hhard].
  split; [reflexivity |]. split; [reflexivity |]. split; [exact Hp |].
  split; [exact Hrun |]. split; [exact Hsafe |]. split; [exact Hincr |].
  apply Hhard. unfold hardened. lia.
Defined.

(** C5, as stated, fails on the last account: the path is classified as
    known and starts with [hardened(44)], element 2 is the hardened value
    [0xFFFFFFFF], and the answer has [0x100000000] there, which is not a
    32-bit value and has bit 31 clear. *)
Lemma btcNextAccountPath_last_account_counterexample :
  let msg := btc_first_account in
  let h := btc_last_account_heap in
  let path := [VNum (hardened 44); VNum (hardened 0); VNum 0xFFFFFFFF; VNum 0; VNum 0] in
  let r := btcNextAccountPath (core := spec_core) msg h in
  h !! BTCAccountPath.addressNList msg = Some path
  /\ PathDescription.isKnown (btcDescribePath path "Bitcoin" P2PKH) = true
  /\ bit31 (VNum 0xFFFFFFFF) = true
  /\ fst r = Some msg
  /\ snd r !! BTCAccountPath.addressNList msg
     = Some [VNum (hardened 44); VNum (hardened 0); VNum 0x100000000; VNum 0; VNum 0]
  /\ bit31 (VNum 0x100000000) = false.
Proof.
  cbv zeta. repeat split; vm_compute; reflexivity.
Qed.

Lemma ethNextAccountPath_whole_account_witness :
  let hp := [VNum (hardened 44); VNum (hardened 60); VNum (hardened 0)] in
  let rp := [VNum 0; VNum 0] in
  let hp' := [VNum (hardened 44); VNum (hardened 60); VNum (hardened 1)] in
  eth_first_account_heap !! ETHAccountPath.hardenedPath eth_msg = Some hp
  /\ eth_first_account_heap !! ETHAccountPath.relPath eth_msg = Some rp
  /\ PathDescription.isKnown (spec_classifyPath (hp ++ rp)) = true
  /\ PathDescription.wholeAccount (spec_classifyPath (hp ++ rp)) = Some true
  /\ exists next h',
      ethNextAccountPath (core := spec_core) eth_msg eth_first_account_heap
        = (Some next, h')
      /\ h' !! ETHAccountPath.hardenedPath next = Some hp'
      /\ h' !! ETHAccountPath.relPath next = Some rp
      /\ PathDescription.accountIdx
           (ethDescribeLedgerPath (core := spec_core) (hp ++ rp)) = Some (VNum 0)
      /\ PathDescription.accountIdx
           (ethDescribeLedgerPath (core := spec_core) (eth_combined next h'))
         = Some (VNum 1).
Proof.
  cbv zeta.
  destruct (ethNextAccountPath_whole_account (core := spec_core)
              eth_msg eth_first_account_heap
              [VNum (hardened 44); VNum (hardened 60); VNum (hardened 0)]
              [VNum 0; VNum 0] eq_refl eq_refl eq_refl eq_refl)
    as (next & h' & Hrun & Hh & Hr & _ & _ & Hround).
  destruct (Hround 0 ltac:(lia) eq_refl) as (_ & Hbefore & Hafter).
  repeat (split; [reflexivity |]).
  exists next, h'.
  split; [exact Hrun |]. split; [exact Hh |]. split; [exact Hr |].
  split; [exact Hbefore |]. exact (Hafter eq_refl).
Defined.

(** C6, as stated, fails in two places.  On the last account the
    combined path is known and whole account with index [2^31 - 1], and
    the answer has [0x100000000] at element 2, which no classifier of the
    scheme accepts.  On the four-element form the combined path is known
    and whole account with index 3, element 2 becomes [hardened(1)], and
    the result is not a path of the scheme either. *)
Lemma ethNextAccountPath_round_trip_counterexample :
  (let h := eth_last_account_heap in
   let before := eth_combined eth_msg h in
   let r := ethNextAccountPath (core := spec_core) eth_msg h in
   before = [VNum (hardened 44); VNum (hardened 60); VNum 0xFFFFFFFF; VNum 0; VNum 0]
   /\ PathDescription.isKnown (ethDescribePath before) = true
   /\ PathDescription.wholeAccount (ethDescribePath before) = Some true
   /\ PathDescription.accountIdx (ethDescribePath before) = Some (VNum 0x7FFFFFFF)
   /\ PathDescription.accountIdx (ethDescribeLedgerPath before) = Some (VNum 0x7FFFFFFF)
   /\ exists next,
       fst r = Some next
       /\ eth_combined next (snd r)
          = [VNum (hardened 44); VNum (hardened 60); VNum 0x100000000; VNum 0; VNum 0]
       /\ PathDescription.isKnown (ethDescribeLedgerPath (eth_combined next (snd r)))
          = false
       /\ PathDescription.accountIdx (ethDescribeLedgerPath (eth_combined next (snd r)))
          = None
       /\ PathDescription.accountIdx (ethDescribePath (eth_combined next (snd r)))
          = None)
  /\
  (let h := eth_short_form_heap in
   let before := eth_combined eth_msg h in
   let r := ethNextAccountPath (core := spec_core) eth_msg h in
   before = [VNum (hardened 44); VNum (hardened 60); VNum (hardened 0); VNum 3]
   /\ PathDescription.isKnown (ethDescribePath before) = true
   /\ PathDescription.wholeAccount (ethDescribePath before) = Some true
   /\ PathDescription.accountIdx (ethDescribePath before) = Some (VNum 3)
   /\ PathDescription.accountIdx (ethDescribeLedgerPath before) = Some (VNum 3)
   /\ exists next,
       fst r = Some next
       /\ eth_combined next (snd r)
          = [VNum (hardened 44); VNum (hardened 60); VNum (hardened 1); VNum 3]
       /\ PathDescription.isKnown (ethDescribeLedgerPath (eth_combined next (snd r)))
          = false
       /\ PathDescription.accountIdx (ethDescribeLedgerPath (eth_combined next (snd r)))
          = None
       /\ PathDescription.accountIdx (ethDescribePath (eth_combined next (snd r)))
          = None).
Proof.
  cbv zeta. split.
  - repeat (split; [vm_compute; reflexivity |]).
    eexists. repeat split; vm_compute; reflexivity.
  - repeat (split; [vm_compute; reflexivity |]).
    eexists. repeat split; vm_compute; reflexivity.
Qed.

(** ** The application guard and the dispatcher *)

Section Wallet.
Context {env : Env}.

Lemma transport_call_run (w : World) (res : Response) (d : Dev) :
  transport_call "getAppAndVersion" [] (dev w) = (inr res, d) ->
  transport_call_ "getAppAndVersion" [] w = (inr res, after_query w d).
Proof. intros Hc. unfold transport_call_. rewrite Hc. reflexivity. Qed.

(** C7.  For a coin bound to an application and a device that answers
    [getAppAndVersion], [validateCurrentApp] throws
    [WrongApp("Ledger", app)] exactly when the reported name is not the
    bound name, compared as strings, and returns without error exactly
    when the two are equal; it makes that one transport call. *)
Theorem validateCurrentApp_wrong_app
    (coin app : string) (w : World) (res : Response) (d : Dev) :
  coin <> "" ->
  coinToLedgerAppName coin = Some app ->
  app <> "" ->
  transport_call "getAppAndVersion" [] (dev w) = (inr res, d) ->
  handleError res = None ->
  let r := validateCurrentApp (Some coin) w in
  (fst r = inl (WrongApp "Ledger" app) <-> payload_name res <> Some app)
  /\ (fst r = inr tt <-> payload_name res = Some app)
  /\ snd r = after_query w d.
Proof.
  intros Hcoin Happ Hne Hcall Herr r. subst r.
  unfold validateCurrentApp.
  rewrite (proj2 (String.eqb_neq coin "") Hcoin), Happ,
          (proj2 (String.eqb_neq app "") Hne).
  unfold wbind. rewrite (transport_call_run w res d Hcall).
  unfold handleError_. rewrite Herr. unfold wret, throw.
  case_bool_decide as Hname; cbn [negb fst snd].
  - split; [| split; [| reflexivity]].
    + split; [intros E; discriminate E | intros E; contradiction].
    + split; [intros _; exact Hname | reflexivity].
  - split; [| split; [| reflexivity]].
    + split; [intros _; exact Hname | reflexivity].
    + split; [intros E; discriminate E | intros E; contradiction].
Qed.


Lemma btcApps_spec (name : option string) :
  name ∈ filter (fun x => x <> None)
           (map (fun x => coinToLedgerAppName x) supportedCoins)
  <-> utxo_app name.
Proof.
  rewrite list_elem_of_filter, list_elem_of_In, in_map_iff. unfold utxo_app.
  split.
  - intros (Hn & coin & Hc & Hin). destruct name as [app |]; [| congruence].
    exists coin, app. rewrite list_elem_of_In. tauto.
  - intros (coin & app & Hin & Hc & ->). split; [discriminate |].
    exists coin. rewrite <- list_elem_of_In. tauto.
Qed.

Lemma invoke_trace (c : backend_call BTCMsg ETHMsg GetPublicKey) (w : World) :
  trace (snd (invoke c w)) = trace w ++ [EvBackend c]
  /\ forall m, fst (invoke c w) <> inl (Error m).
Proof.
  unfold invoke. destruct (backend c (dev w)) as [[e | x] d]; cbn [fst snd trace];
    split; try reflexivity; intros m E; discriminate E.
Qed.

Lemma backend_events_app (tr1 tr2 : list event) :
  backend_events (tr1 ++ tr2) = backend_events tr1 ++ backend_events tr2.
Proof. apply omap_app. Qed.

Lemma transport_calls_app (tr1 tr2 : list event) :
  transport_calls (tr1 ++ tr2) = transport_calls tr1 ++ transport_calls tr2.
Proof. apply omap_app. Qed.

(** Goals that compare the backend calls of two traces. *)
Ltac settle_traces Hnil :=
  repeat split; intros; try tauto; try reflexivity;
  try (exfalso;
       match goal with
       | E : _ ++ _ = _ ++ _ |- _ => apply app_inv_head in E; discriminate E
       | E : _ ++ [_] = _ |- _ => exact (Hnil _ _ E)
       | E : _ = _ ++ [_] |- _ => exact (Hnil _ _ (eq_sym E))
       end).

(** The three outcomes of [getPublicKeys] on a device that answers. *)
Lemma getPublicKeys_run
    (msg : list GetPublicKey) (w : World) (res : Response) (d : Dev) :
  transport_call "getAppAndVersion" [] (dev w) = (inr res, d) ->
  handleError res = None ->
  getPublicKeys msg w =
    if bool_decide (payload_name res ∈
                      filter (fun x => x <> None)
                        (map (fun x => coinToLedgerAppName x) supportedCoins))
    then invoke (btc_btcGetPublicKeys msg) (after_query w d)
    else if bool_decide (payload_name res = Some "Ethereum")
    then invoke (eth_ethGetPublicKeys msg) (after_query w d)
    else (inl (Error ("getPublicKeys is not supported with the "
                      +:+ str (payload_name res) +:+ " app")),
          after_query w d).
Proof.
  intros Hcall Herr. unfold getPublicKeys, wbind.
  rewrite (transport_call_run w res d Hcall).
  unfold handleError_. rewrite Herr. unfold wret, throw.
  repeat case_bool_decide; reflexivity.
Qed.

(** The outcomes of [getPublicKeys], by the reported name. *)
Lemma getPublicKeys_outcomes
    (msg : list GetPublicKey) (w : World) (res : Response) (d : Dev) :
  transport_call "getAppAndVersion" [] (dev w) = (inr res, d) ->
  handleError res = None ->
  let name := payload_name res in
  let r := getPublicKeys msg w in
  (utxo_app name -> r = invoke (btc_btcGetPublicKeys msg) (after_query w d))
  /\ (~ utxo_app name -> name = Some "Ethereum" ->
      r = invoke (eth_ethGetPublicKeys msg) (after_query w d))
  /\ (~ utxo_app name -> name <> Some "Ethereum" ->
      r = (inl (Error ("getPublicKeys is not supported with the "
                       +:+ str name +:+ " app")),
           after_query w d))
  /\ transport_calls (trace (snd r)) = transport_calls (trace w) ++ ["getAppAndVersion"]
  /\ (backend_events (trace (snd r))
        = backend_events (trace w) ++ [btc_btcGetPublicKeys msg]
      <-> utxo_app name)
  /\ (backend_events (trace (snd r))
        = backend_events (trace w) ++ [eth_ethGetPublicKeys msg]
      <-> ~ utxo_app name /\ name = Some "Ethereum")
  /\ (backend_events (trace (snd r)) = backend_events (trace w)
      <-> ~ utxo_app name /\ name <> Some "Ethereum").
Proof.
  intros Hcall Herr name r. subst name r.
  rewrite (getPublicKeys_run msg w res d Hcall Herr).
  assert (Hnil : forall (l : list (backend_call BTCMsg ETHMsg GetPublicKey)) x,
             l ++ [x] = l -> False).
  { intros l x E. apply (f_equal length) in E. rewrite length_app in E.
    cbn in E. lia. }
  case_bool_decide as Hu; [| case_bool_decide as He];
    rewrite btcApps_spec in Hu.
  - destruct (invoke_trace (btc_btcGetPublicKeys msg) (after_query w d)) as [Ht _].
    rewrite Ht. cbn [after_query trace].
    rewrite !backend_events_app, !transport_calls_app.
    cbn; rewrite ?app_nil_r. settle_traces Hnil.
  - destruct (invoke_trace (eth_ethGetPublicKeys msg) (after_query w d)) as [Ht _].
    rewrite Ht. cbn [after_query trace].
    rewrite !backend_events_app, !transport_calls_app.
    cbn; rewrite ?app_nil_r. settle_traces Hnil.
  - cbn [snd after_query trace].
    rewrite !backend_events_app, !transport_calls_app.
    cbn; rewrite ?app_nil_r. settle_traces Hnil.
Qed.

(** The backend function chosen does not depend on the batch. *)
Lemma getPublicKeys_same_backend (msg msg' : list GetPublicKey) (w : World) :
  map backend_fn (backend_events (trace (snd (getPublicKeys msg' w))))
  = map backend_fn (backend_events (trace (snd (getPublicKeys msg w)))).
Proof.
  unfold getPublicKeys, wbind, transport_call_, handleError_, wret, throw.
  destruct (transport_call "getAppAndVersion" [] (dev w)) as [[e | res] d];
    [reflexivity |].
  destruct (handleError res); [reflexivity |].
  repeat case_bool_decide; try reflexivity;
    rewrite !(proj1 (invoke_trace _ _)), !backend_events_app, !map_app;
    reflexivity.
Qed.

(** C8.  On a device that answers [getAppAndVersion] with a name,
    [getPublicKeys] makes that one transport call and hands the whole
    batch to the UTXO backend exactly when the name is the application
    of some supported UTXO coin; otherwise to the EVM backend exactly
    when the name is "Ethereum"; otherwise it throws an error whose
    message names the application.  The choice depends on the reported
    name only: any other batch goes to the same backend function. *)
Theorem getPublicKeys_dispatch
    (msg : list GetPublicKey) (w : World) (res : Response) (d : Dev) :
  transport_call "getAppAndVersion" [] (dev w) = (inr res, d) ->
  handleError res = None ->
  let name := payload_name res in
  let r := getPublicKeys msg w in
  (utxo_app name -> r = invoke (btc_btcGetPublicKeys msg) (after_query w d))
  /\ (~ utxo_app name -> name = Some "Ethereum" ->
      r = invoke (eth_ethGetPublicKeys msg) (after_query w d))
  /\ (~ utxo_app name -> name <> Some "Ethereum" ->
      r = (inl (Error ("getPublicKeys is not supported with the "
                       +:+ str name +:+ " app")),
           after_query w d))
  /\ transport_calls (trace (snd r)) = transport_calls (trace w) ++ ["getAppAndVersion"]
  /\ (backend_events (trace (snd r))
        = backend_events (trace w) ++ [btc_btcGetPublicKeys msg]
      <-> utxo_app name)
  /\ (backend_events (trace (snd r))
        = backend_events (trace w) ++ [eth_ethGetPublicKeys msg]
      <-> ~ utxo_app name /\ name = Some "Ethereum")
  /\ (backend_events (trace (snd r)) = backend_events (trace w)
      <-> ~ utxo_app name /\ name <> Some "Ethereum")
  /\ (forall msg' : list GetPublicKey,
        map backend_fn (backend_events (trace (snd (getPublicKeys msg' w))))
        = map backend_fn (backend_events (trace (snd r)))).
Proof.
  intros Hcall Herr name r.
  pose proof (getPublicKeys_outcomes msg w res d Hcall Herr)
    as (Hbtc & Heth & Hnone & Hcalls & Ibtc & Ieth & Inone).
  repeat (split; [assumption |]).
  intros msg'. apply getPublicKeys_same_backend.
Qed.

(** The guard adds at most its one query to the trace. *)
Lemma validateCurrentApp_trace (coin : option string) (w : World) :
  exists new,
    trace (snd (validateCurrentApp coin w)) = trace w ++ new
    /\ (new = [] \/ new = [EvCall "getAppAndVersion" []]).
Proof.
  unfold validateCurrentApp, wbind, transport_call_, handleError_, wret, throw.
  destruct coin as [coin |]; [| exists []; rewrite app_nil_r; tauto].
  destruct (String.eqb coin ""); [exists []; rewrite app_nil_r; tauto |].
  destruct (coinToLedgerAppName coin) as [app |];
    [| exists []; rewrite app_nil_r; tauto].
  destruct (String.eqb app ""); [exists []; rewrite app_nil_r; tauto |].
  exists [EvCall "getAppAndVersion" []]. split; [| tauto].
  destruct (transport_call "getAppAndVersion" [] (dev w)) as [[e | res] d];
    [reflexivity |].
  destruct (handleError res); [reflexivity |].
  destruct (negb _); reflexivity.
Qed.

(** Each signing operation is its guard followed by its backend call. *)
Lemma run_op_unfold (op : signing_op) (w : World) :
  run_op op w =
    match validateCurrentApp (guard_coin op) w with
    | (inr _, w') => invoke (backend_of op) w'
    | (inl e, w') => (inl e, w')
    end.
Proof. destruct op; reflexivity. Qed.

(** C9.  Each of the six signing operations runs [validateCurrentApp]
    for its coin first.  When the guard throws, the operation throws the
    same error from the same world and its trace has no call into a
    backend; when the guard returns, the operation is the backend call
    made from the world the guard left.  The guard itself adds at most
    its one [getAppAndVersion] query. *)
Theorem signing_guarded (op : signing_op) (w : World) :
  let g := validateCurrentApp (guard_coin op) w in
  let r := run_op op w in
  (forall e, fst g = inl e ->
     r = (inl e, snd g)
     /\ backend_events (trace (snd r)) = backend_events (trace w))
  /\ (fst g = inr tt ->
      r = invoke (backend_of op) (snd g)
      /\ backend_events (trace (snd r))
         = backend_events (trace w) ++ [backend_of op])
  /\ (exists new,
        trace (snd g) = trace w ++ new
        /\ (new = [] \/ new = [EvCall "getAppAndVersion" []])).
Proof.
  intros g r. subst g r. rewrite run_op_unfold.
  destruct (validateCurrentApp_trace (guard_coin op) w) as (new & Hnew & Hshape).
  assert (Hb : backend_events (trace (snd (validateCurrentApp (guard_coin op) w)))
               = backend_events (trace w)).
  { rewrite Hnew, backend_events_app.
    destruct Hshape as [-> | ->]; cbn; apply app_nil_r. }
  destruct (validateCurrentApp (guard_coin op) w) as [[e | []] w'] eqn:Hg;
    cbn [fst snd] in *.
  - split; [| split].
    + intros e' E. injection E as <-. split; [reflexivity | exact Hb].
    + intros E. discriminate E.
    + exists new. tauto.
  - split; [| split].
    + intros e' E. discriminate E.
    + intros _. split; [reflexivity |].
      destruct (invoke_trace (backend_of op) w') as [Ht _].
      rewrite Ht, backend_events_app, Hb. reflexivity.
    + exists new. tauto.
Qed.

End Wallet.

Lemma validateCurrentApp_wrong_app_witness :
  let w := {| dev := "Bitcoin"; trace := [] |} in
  let res := {| success := true; payload_name := Some "Bitcoin" |} in
  "Ethereum" <> ""
  /\ coinToLedgerAppName (Env := spec_env) "Ethereum" = Some "Ethereum"
  /\ transport_call (Env := spec_env) "getAppAndVersion" [] (dev w) = (inr res, "Bitcoin")
  /\ handleError (Env := spec_env) res = None
  /\ payload_name res <> Some "Ethereum"
  /\ fst (validateCurrentApp (env := spec_env) (Some "Ethereum") w)
     = inl (WrongApp "Ledger" "Ethereum").
Proof.
  cbv zeta.
  assert (Hne : "Ethereum" <> "") by discriminate.
  pose proof (validateCurrentApp_wrong_app (env := spec_env) "Ethereum" "Ethereum"
                {| dev := "Bitcoin"; trace := [] |}
                {| success := true; payload_name := Some "Bitcoin" |}
                "Bitcoin" Hne eq_refl Hne eq_refl eq_refl) as (Hwrong & _ & _).
  assert (Hdiff : Some "Bitcoin" <> Some "Ethereum") by discriminate.
  split; [exact Hne |]. split; [reflexivity |]. split; [reflexivity |].
  split; [reflexivity |]. split; [exact Hdiff |].
  apply Hwrong. exact Hdiff.
Defined.

Lemma getPublicKeys_dispatch_witness :
  let w := {| dev := "Bitcoin Cash"; trace := [] |} in
  let res := {| success := true; payload_name := Some "Bitcoin Cash" |} in
  transport_call (Env := spec_env) "getAppAndVersion" [] (dev w) = (inr res, "Bitcoin Cash")
  /\ handleError (Env := spec_env) res = None
  /\ utxo_app (env := spec_env) (payload_name res)
  /\ getPublicKeys (env := spec_env) ["m/44'/60'/0'"; "m/44'/0'/0'"] w
     = invoke (btc_btcGetPublicKeys ["m/44'/60'/0'"; "m/44'/0'/0'"])
         (after_query w "Bitcoin Cash").
Proof.
  cbv zeta.
  pose proof (getPublicKeys_dispatch (env := spec_env) ["m/44'/60'/0'"; "m/44'/0'/0'"]
                {| dev := "Bitcoin Cash"; trace := [] |}
                {| success := true; payload_name := Some "Bitcoin Cash" |}
                "Bitcoin Cash" eq_refl eq_refl) as (Hbtc & _).
  assert (Hu : utxo_app (env := spec_env) (Some "Bitcoin Cash")).
  { exists "BitcoinCash", "Bitcoin Cash".
    split; [| split; reflexivity].
    apply list_elem_of_In. right. left. reflexivity. }
  split; [reflexivity |]. split; [reflexivity |]. split; [exact Hu |].
  apply Hbtc. exact Hu.
Defined.

(** ** The scenarios of the specification, run on the model *)

Example scenario_1 :
  describePath (core := spec_core)
    {| DescribePath.path :=
         [VNum 0x8000002C; VNum 0x8000003C; VNum 0x80000001; VNum 0; VNum 0];
       DescribePath.coin := "Ethereum";
       DescribePath.scriptType := None |}
  = {| PathDescription.verbose := "Ethereum Account #1";
       PathDescription.coin := "Ethereum";
       PathDescription.isKnown := true;
       PathDescription.wholeAccount := Some true;
       PathDescription.accountIdx := Some (VNum 1);
       PathDescription.isPrefork := Some false;
       PathDescription.scriptType := None |}.
Proof. vm_compute. reflexivity. Qed.

Example scenario_2 :
  ethDescribeLedgerPath (core := spec_core)
    [VNum 0x8000002C; VNum 0x8000003C; VNum 0x80000000; VNum 3]
  = {| PathDescription.verbose := "Ethereum Account #3";
       PathDescription.coin := "Ethereum";
       PathDescription.isKnown := true;
       PathDescription.wholeAccount := Some true;
       PathDescription.accountIdx := Some (VNum 3);
       PathDescription.isPrefork := Some false;
       PathDescription.scriptType := None |}.
Proof. vm_compute. reflexivity. Qed.

Example scenario_3 :
  ethDescribeLedgerPath (core := spec_core)
    [VNum 0x8000002C; VNum 0x8000003C; VNum 3; VNum 0; VNum 0]
  = {| PathDescription.verbose := "m/44'/60'/3/0/0";
       PathDescription.coin := "Ethereum";
       PathDescription.isKnown := false;
       PathDescription.wholeAccount := None;
       PathDescription.accountIdx := None;
       PathDescription.isPrefork := None;
       PathDescription.scriptType := None |}.
Proof. vm_compute. reflexivity. Qed.

Example scenario_5 :
  let r := ethNextAccountPath (core := spec_core) eth_msg eth_first_account_heap in
  fst r = Some {| ETHAccountPath.addressNList := Some 3%positive;
                  ETHAccountPath.hardenedPath := 4%positive;
                  ETHAccountPath.relPath := 5%positive |}
  /\ snd r !! 4%positive
     = Some [VNum (hardened 44); VNum (hardened 60); VNum (hardened 1)]
  /\ snd r !! 5%positive = Some [VNum 0; VNum 0]
  /\ snd r !! 1%positive = eth_first_account_heap !! 1%positive
  /\ snd r !! 2%positive = eth_first_account_heap !! 2%positive.
Proof. cbv zeta. repeat split; vm_compute; reflexivity. Qed.

Example scenario_6 :
  validateCurrentApp (env := spec_env) (Some "Ethereum") {| dev := "Bitcoin"; trace := [] |}
  = (inl (WrongApp "Ledger" "Ethereum"),
     {| dev := "Bitcoin"; trace := [EvCall "getAppAndVersion" []] |}).
Proof. vm_compute. reflexivity. Qed.

(** A signing request against the wrong application stops at the guard:
    the trace holds the query and no call into a backend. *)
Example ethSignTx_wrong_app :
  ethSignTx (env := spec_env) tt {| dev := "Bitcoin"; trace := [] |}
  = (inl (WrongApp "Ledger" "Ethereum"),
     {| dev := "Bitcoin"; trace := [EvCall "getAppAndVersion" []] |}).
Proof. vm_compute. reflexivity. Qed.

(** The comparison of application names is exact: a name that differs in
    case only is the wrong application. *)
Example validateCurrentApp_case_sensitive :
  fst (validateCurrentApp (env := spec_env) (Some "Ethereum")
         {| dev := "ethereum"; trace := [] |})
  = inl (WrongApp "Ledger" "Ethereum").
Proof. vm_compute. reflexivity. Qed.

(** A batch that names Ethereum keys goes to the UTXO backend when the
    device runs the Bitcoin application. *)
Example getPublicKeys_ignores_requests :
  getPublicKeys (env := spec_env) ["Ethereum"; "Ethereum"] {| dev := "Bitcoin"; trace := [] |}
  = (inr "done",
     {| dev := "Bitcoin";
        trace := [EvCall "getAppAndVersion" [];
                  EvBackend (btc_btcGetPublicKeys ["Ethereum"; "Ethereum"])] |}).
Proof. vm_compute. reflexivity. Qed.


(** * Further properties of the code *)

(** ** The classifier *)

Lemma unhardened_bit31 (v : value) : bit31 (unhardened v) = false.
Proof.
  destruct v as [z | |]; try reflexivity.
  cbn [unhardened bit31]. apply Z.mod_pow2_bits_high. lia.
Qed.

Lemma bit31_uint32 (z : Z) :
  0 <= z < 2 ^ 32 -> Z.testbit z 31 = (2 ^ 31 <=? z).
Proof.
  intros Hz. destruct (Z.leb_spec (2 ^ 31) z) as [Hge | Hlt].
  - apply (bit31_range z). lia.
  - rewrite <- (Z.mod_small z (2 ^ 31)) by lia.
    apply Z.mod_pow2_bits_high. lia.
Qed.

Section ClassifierMore.
Context {ST : Type} {core : Core ST}.

(** X2.  Every answer of [ethDescribeLedgerPath] is either the unknown
    description of the path or the known description of an account index
    whose bit 31 is clear: the masked element 2 of a five-element path
    or element 3 of a four-element path. *)
Theorem ethDescribeLedgerPath_dichotomy (p : list value) :
  let d := ethDescribeLedgerPath p in
  d = unknown_description p
  \/ exists v,
      d = known_description v
      /\ bit31 v = false
      /\ ((length p = 5%nat /\ v = unhardened (js_index p 2))
          \/ (length p = 4%nat /\ v = js_index p 3)).
Proof.
  intros d. subst d. rewrite ethDescribeLedgerPath_rules. unfold classify_rules.
  destruct p as [| p0 [| p1 [| p2 [| p3 [| p4 [| p5 rest]]]]]];
    try (left; reflexivity).
  - case_decide as Hrules; [right | left; reflexivity].
    exists p3. destruct Hrules as (_ & _ & _ & H3).
    split; [reflexivity |]. split; [exact H3 |]. right. split; reflexivity.
  - case_decide as Hrules; [right | left; reflexivity].
    exists (unhardened p2).
    split; [reflexivity |]. split; [apply unhardened_bit31 |].
    left. split; reflexivity.
Qed.

(** X3.  A path of 32-bit numbers that is classified as known is one of
    the two forms of the scheme, built from the account index of the
    answer: [[hardened(44), hardened(slip44), hardened(i), 0, 0]] or
    [[hardened(44), hardened(slip44), hardened(0), i]], with [i] below
    [2^31]. *)
Theorem ethDescribeLedgerPath_known_inv (p : list value) :
  uint32_path p ->
  PathDescription.isKnown (ethDescribeLedgerPath p) = true ->
  exists i : Z,
    0 <= i < 2 ^ 31
    /\ PathDescription.accountIdx (ethDescribeLedgerPath p) = Some (VNum i)
    /\ (p = eth_account_path i
        \/ p = [VNum (hardened 44); VNum (hardened (slip44ByCoin "Ethereum"));
                VNum (hardened 0); VNum i]).
Proof.
  intros Hp. rewrite ethDescribeLedgerPath_rules. unfold classify_rules.
  destruct p as [| p0 [| p1 [| p2 [| p3 [| p4 [| p5 rest]]]]]];
    try (intros Hk; discriminate Hk).
  - case_decide as Hrules; [intros _ | intros Hk; discriminate Hk].
    destruct Hrules as (-> & -> & -> & H3).
    apply Forall_cons_1 in Hp as [_ Hp]. apply Forall_cons_1 in Hp as [_ Hp].
    apply Forall_cons_1 in Hp as [_ Hp].
    apply Forall_cons_1 in Hp as [(z & -> & Hz) _].
    cbn [bit31] in H3. rewrite (bit31_uint32 z Hz) in H3.
    apply Z.leb_gt in H3.
    exists z. split; [lia |]. split; [reflexivity |]. right. reflexivity.
  - case_decide as Hrules; [intros _ | intros Hk; discriminate Hk].
    destruct Hrules as (-> & -> & H2 & -> & ->).
    apply Forall_cons_1 in Hp as [_ Hp]. apply Forall_cons_1 in Hp as [_ Hp].
    apply Forall_cons_1 in Hp as [(z & -> & Hz) _].
    cbn [bit31] in H2. rewrite (bit31_uint32 z Hz) in H2.
    apply Z.leb_le in H2.
    exists (z - 2 ^ 31). split; [lia |].
    assert (Hmod : z mod 2 ^ 31 = z - 2 ^ 31).
    { replace z with ((z - 2 ^ 31) + 1 * 2 ^ 31) at 1 by lia.
      rewrite Z.mod_add by lia. apply Z.mod_small. lia. }
    split.
    + cbn [known_description unhardened PathDescription.accountIdx].
      rewrite Hmod. reflexivity.
    + left. unfold eth_account_path, hardened. do 3 f_equal. f_equal. lia.
Qed.

(** X4.  The two forms of the scheme collide: for every index [j] below
    [2^31] the four-element path [[.., hardened(0), j]] and the
    five-element path [[.., hardened(j), 0, 0]] get the same description,
    field by field. *)
Theorem ethDescribeLedgerPath_forms_collide (j : Z) :
  0 <= j < 2 ^ 31 ->
  ethDescribeLedgerPath
    [VNum (hardened 44); VNum (hardened (slip44ByCoin "Ethereum"));
     VNum (hardened 0); VNum j]
  = ethDescribeLedgerPath (eth_account_path j).
Proof.
  intros Hj. rewrite (classify_account_path j Hj), ethDescribeLedgerPath_rules.
  unfold classify_rules.
  case_decide as Hrules; [reflexivity | exfalso].
  apply Hrules. repeat split; try reflexivity.
  cbn [bit31]. rewrite bit31_uint32 by lia. apply Z.leb_gt. lia.
Qed.

Lemma ethDescribeLedgerPath_coin (p : list value) :
  PathDescription.coin (ethDescribeLedgerPath p) = "Ethereum"
  /\ PathDescription.scriptType (ethDescribeLedgerPath p) = None.
Proof.
  rewrite ethDescribeLedgerPath_rules. unfold classify_rules.
  destruct p as [| p0 [| p1 [| p2 [| p3 [| p4 [| p5 rest]]]]]];
    try (split; reflexivity);
    case_decide; split; reflexivity.
Qed.

(** X5.  For a coin that spells "ethereum" in any case, [describePath]
    depends on the path only: the answer carries the coin "Ethereum" and
    no script type, whatever coin spelling and script type the query
    holds, and the generic classifier is not consulted. *)
Theorem describePath_ethereum_normalised (msg : DescribePath.t ST) :
  spells "ethereum" (DescribePath.coin msg) = true ->
  PathDescription.coin (describePath msg) = "Ethereum"
  /\ PathDescription.scriptType (describePath msg) = None
  /\ describePath msg
     = describePath {| DescribePath.path := DescribePath.path msg;
                       DescribePath.coin := "Ethereum";
                       DescribePath.scriptType := None |}.
Proof.
  intros Hs. unfold describePath.
  assert (Hw : Forall (fun l => In l (list_ascii_of_string "ethrum"))
                 (list_ascii_of_string "ethereum"))
    by (repeat constructor; cbn; tauto).
  rewrite (toLowerCase_spells "ethereum" Hw), Hs.
  cbn [DescribePath.coin DescribePath.path].
  rewrite (toLowerCase_spells "ethereum" Hw).
  destruct (ethDescribeLedgerPath_coin (DescribePath.path msg)) as [Hc Hst].
  split; [exact Hc |]. split; [exact Hst | reflexivity].
Qed.

End ClassifierMore.

(** ** The account path enumerators *)

Lemma js_incr_at_in_range (i : nat) (a : list value) :
  (i < length a)%nat ->
  length (js_incr_at i a) = length a
  /\ forall j : nat, j <> i -> js_incr_at i a !! j = a !! j.
Proof.
  intros Hi. unfold js_incr_at.
  destruct (lookup_lt_is_Some_2 a i Hi) as [v Hv]. rewrite Hv.
  split; [apply length_insert |].
  intros j Hj. apply list_lookup_insert_ne. congruence.
Qed.

Section EnumeratorsMore.
Context {ST : Type} {core : Core ST}.

(** The run of [btcNextAccountPath] on a store that holds the array of
    [msg]. *)
Lemma btcNextAccountPath_run
    (msg : BTCAccountPath.t ST) (h : gmap positive (list value)) (path : list value) :
  h !! BTCAccountPath.addressNList msg = Some path ->
  btcNextAccountPath msg h =
    if PathDescription.isKnown
         (btcDescribePath path (BTCAccountPath.coin msg) (BTCAccountPath.scriptType msg))
       && bool_decide (bip_purpose (js_index path 0))
    then (Some msg, <[BTCAccountPath.addressNList msg := js_incr_at 2 path]> h)
    else (None, h).
Proof.
  intros Hpath.
  cbv beta iota zeta delta [btcNextAccountPath bind read incr ret].
  rewrite (lookup_total_correct _ _ _ Hpath).
  destruct (PathDescription.isKnown _); cbn [negb andb]; cbv beta; [| reflexivity].
  rewrite (lookup_total_correct _ _ _ Hpath), bip_purpose_test.
  case_bool_decide; [| reflexivity].
  rewrite (lookup_total_correct _ _ _ Hpath). destruct msg; reflexivity.
Qed.

(** X6.  [btcNextAccountPath] allocates nothing and writes to the array
    of [msg] only: every other array of the store is unchanged, an
    [undefined] answer leaves the whole store unchanged, an answer is
    [msg] itself with the same array reference, and when the array has
    an element 2 its length and all its other elements stay as they
    were. *)
Theorem btcNextAccountPath_frame
    (msg : BTCAccountPath.t ST) (h : gmap positive (list value)) (path : list value) :
  h !! BTCAccountPath.addressNList msg = Some path ->
  let r := btcNextAccountPath msg h in
  dom (snd r) = dom h
  /\ (forall l : positive,
        l <> BTCAccountPath.addressNList msg -> snd r !! l = h !! l)
  /\ (fst r = None -> snd r = h)
  /\ (forall next, fst r = Some next ->
        next = msg
        /\ snd r !! BTCAccountPath.addressNList msg = Some (js_incr_at 2 path))
  /\ ((2 < length path)%nat ->
      exists path',
        snd r !! BTCAccountPath.addressNList msg = Some path'
        /\ length path' = length path
        /\ forall j : nat, j <> 2%nat -> path' !! j = path !! j).
Proof.
  intros Hpath r. subst r. rewrite (btcNextAccountPath_run msg h path Hpath).
  destruct (_ && _); cbn [fst snd].
  - split; [apply dom_insert_lookup_L; eauto |].
    split; [intros l Hl; apply lookup_insert_ne; congruence |].
    split; [intros E; discriminate E |].
    split.
    + intros next E. injection E as <-. split; [reflexivity | apply lookup_insert_eq].
    + intros Hlen. exists (js_incr_at 2 path).
      split; [apply lookup_insert_eq |]. apply js_incr_at_in_range. exact Hlen.
  - split; [reflexivity |]. split; [reflexivity |]. split; [reflexivity |].
    split; [intros next E; discriminate E |].
    intros Hlen. exists path. split; [exact Hpath |]. split; reflexivity.
Qed.

(** X7.  Two calls in a row, the second on the answer of the first, add
    2 to element 2, a safe integer [z] with [z + 1] safe as well, when
    both paths are classified as known; since both answers hold the
    array of [msg], the first answer shows the second increment too. *)
Theorem btcNextAccountPath_twice
    (msg : BTCAccountPath.t ST) (h : gmap positive (list value))
    (path : list value) (z : Z) :
  h !! BTCAccountPath.addressNList msg = Some path ->
  path !! 2%nat = Some (VNum z) ->
  safe_integer z ->
  safe_integer (z + 1) ->
  bip_purpose (js_index path 0) ->
  PathDescription.isKnown
    (btcDescribePath path (BTCAccountPath.coin msg) (BTCAccountPath.scriptType msg))
    = true ->
  PathDescription.isKnown
    (btcDescribePath (<[2%nat := VNum (z + 1)]> path)
       (BTCAccountPath.coin msg) (BTCAccountPath.scriptType msg))
    = true ->
  exists next1 h1 next2 h2,
    btcNextAccountPath msg h = (Some next1, h1)
    /\ btcNextAccountPath next1 h1 = (Some next2, h2)
    /\ BTCAccountPath.addressNList next1 = BTCAccountPath.addressNList msg
    /\ BTCAccountPath.addressNList next2 = BTCAccountPath.addressNList msg
    /\ h1 !! BTCAccountPath.addressNList next1 = Some (<[2%nat := VNum (z + 1)]> path)
    /\ h2 !! BTCAccountPath.addressNList next1 = Some (<[2%nat := VNum (z + 2)]> path).
Proof.
  intros Hpath Hz Hsafe Hsafe1 Hp Hk1 Hk2.
  assert (Hlen : (2 < length path)%nat) by (eapply lookup_lt_Some; exact Hz).
  set (path1 := <[2%nat := VNum (z + 1)]> path).
  set (h1 := <[BTCAccountPath.addressNList msg := path1]> h).
  assert (Hz1 : path1 !! 2%nat = Some (VNum (z + 1)))
    by (apply list_lookup_insert_eq; exact Hlen).
  assert (Hp1 : bip_purpose (js_index path1 0)).
  { unfold js_index, path1. rewrite list_lookup_insert_ne by discriminate. exact Hp. }
  assert (Hpath1 : h1 !! BTCAccountPath.addressNList msg = Some path1)
    by apply lookup_insert_eq.
  exists msg, h1, msg, (<[BTCAccountPath.addressNList msg := js_incr_at 2 path1]> h1).
  split.
  { rewrite (btcNextAccountPath_run msg h path Hpath), Hk1.
    rewrite bool_decide_eq_true_2 by exact Hp. cbn [andb].
    rewrite (js_incr_at_number 2 path z Hz Hsafe). reflexivity. }
  split.
  { rewrite (btcNextAccountPath_run msg h1 path1 Hpath1). fold path1 in Hk2.
    rewrite Hk2, bool_decide_eq_true_2 by exact Hp1. reflexivity. }
  split; [reflexivity |]. split; [reflexivity |]. split; [exact Hpath1 |].
  rewrite lookup_insert_eq, (js_incr_at_number 2 path1 (z + 1) Hz1 Hsafe1).
  unfold path1. rewrite list_insert_insert_eq. do 3 f_equal. lia.
Qed.

Lemma resplit_distinct (a : positive) (i : nat) (o : option positive)
    (h1 : gmap positive (list value)) (next : ETHAccountPath.t)
    (h' : gmap positive (list value)) :
  resplit a i o h1 = (Some next, h') ->
  ETHAccountPath.hardenedPath next = ETHAccountPath.relPath next -> False.
Proof.
  cbv beta iota zeta delta [resplit]. intros E. injection E as <- _.
  cbn [ETHAccountPath.hardenedPath ETHAccountPath.relPath]. intros Heq.
  match type of Heq with
  | ?hl = fresh (dom ?h3) =>
    pose proof (fresh_lookup_None h3) as F3; rewrite <- Heq in F3
  end.
  rewrite lookup_insert_eq in F3. discriminate F3.
Qed.

(** X8.  [ethNextAccountPath] never writes to an array that existed
    before the call, and the two arrays of an answer are new and
    different from each other: the answer shares nothing with [msg]
    through [hardenedPath] and [relPath]. *)
Theorem ethNextAccountPath_shares_nothing
    (msg : ETHAccountPath.t) (h : gmap positive (list value)) :
  let r := ethNextAccountPath msg h in
  (forall l : positive, is_Some (h !! l) -> snd r !! l = h !! l)
  /\ (forall next, fst r = Some next ->
        h !! ETHAccountPath.hardenedPath next = None
        /\ h !! ETHAccountPath.relPath next = None
        /\ ETHAccountPath.hardenedPath next <> ETHAccountPath.relPath next
        /\ is_Some (snd r !! ETHAccountPath.hardenedPath next)
        /\ is_Some (snd r !! ETHAccountPath.relPath next)).
Proof.
  intros r. subst r. split; [intros l Hl; apply ethNextAccountPath_frame; exact Hl |].
  intros next. rewrite ethNextAccountPath_run. cbv zeta.
  assert (Hres : forall i o,
     fst (resplit (fresh (dom h)) i o (<[fresh (dom h) := eth_combined msg h]> h))
       = Some next ->
     h !! ETHAccountPath.hardenedPath next = None
     /\ h !! ETHAccountPath.relPath next = None
     /\ ETHAccountPath.hardenedPath next <> ETHAccountPath.relPath next
     /\ is_Some (snd (resplit (fresh (dom h)) i o
                        (<[fresh (dom h) := eth_combined msg h]> h))
                 !! ETHAccountPath.hardenedPath next)
     /\ is_Some (snd (resplit (fresh (dom h)) i o
                        (<[fresh (dom h) := eth_combined msg h]> h))
                 !! ETHAccountPath.relPath next)).
  { intros i o.
    destruct (resplit_result (fresh (dom h)) i o
                (<[fresh (dom h) := eth_combined msg h]> h))
      as (n & h' & Hrun & _ & Hh & Hr & Fh & Fr).
    rewrite Hrun. cbn [fst snd]. intros E. injection E as <-.
    apply lookup_insert_None in Fh as [Fh _].
    apply lookup_insert_None in Fr as [Fr _].
    split; [exact Fh |]. split; [exact Fr |].
    split; [| split; eauto].
    intros E.
    destruct (resplit_distinct (fresh (dom h)) i o
                (<[fresh (dom h) := eth_combined msg h]> h) n h' Hrun E). }
  repeat match goal with
         | |- context [if ?c then _ else _] => destruct c
         end;
    try (intros E; discriminate E); apply Hres.
Qed.

(** X9.  The branches of [ethNextAccountPath] besides the whole-account
    one.  An unknown combined path gives [undefined].  A known path that
    is not a whole account gives, for five elements, the split of the
    path with element 2 plus 1; for four elements, the split of the path
    with element 3 plus 1; for any other length, [undefined].  In the two
    answering branches the answer keeps the [addressNList] property of
    [msg]. *)
Theorem ethNextAccountPath_other_branches
    (msg : ETHAccountPath.t) (h : gmap positive (list value)) (hp rp : list value) :
  h !! ETHAccountPath.hardenedPath msg = Some hp ->
  h !! ETHAccountPath.relPath msg = Some rp ->
  let l := hp ++ rp in
  let d := ethDescribePath (ST := ST) l in
  let r := ethNextAccountPath msg h in
  let answers (i : nat) :=
    exists next,
      fst r = Some next
      /\ ETHAccountPath.addressNList next = ETHAccountPath.addressNList msg
      /\ snd r !! ETHAccountPath.hardenedPath next
         = Some (core_hardenedPath (js_incr_at i l))
      /\ snd r !! ETHAccountPath.relPath next
         = Some (core_relativePath (js_incr_at i l)) in
  (PathDescription.isKnown d = false -> fst r = None)
  /\ (PathDescription.isKnown d = true ->
      PathDescription.wholeAccount d <> Some true ->
      (length l = 5%nat -> answers 2%nat)
      /\ (length l = 4%nat -> answers 3%nat)
      /\ (length l <> 5%nat -> length l <> 4%nat -> fst r = None)).
Proof.
  intros Hhp Hrp l d r answers. subst r answers.
  rewrite ethNextAccountPath_run. cbv zeta.
  assert (Hl : eth_combined msg h = l).
  { unfold eth_combined.
    rewrite (lookup_total_correct _ _ _ Hhp), (lookup_total_correct _ _ _ Hrp).
    reflexivity. }
  rewrite Hl. fold d.
  assert (Hans : forall i,
    exists next,
      fst (resplit (fresh (dom h)) i (ETHAccountPath.addressNList msg)
             (<[fresh (dom h) := l]> h)) = Some next
      /\ ETHAccountPath.addressNList next = ETHAccountPath.addressNList msg
      /\ snd (resplit (fresh (dom h)) i (ETHAccountPath.addressNList msg)
                (<[fresh (dom h) := l]> h)) !! ETHAccountPath.hardenedPath next
         = Some (core_hardenedPath (js_incr_at i l))
      /\ snd (resplit (fresh (dom h)) i (ETHAccountPath.addressNList msg)
                (<[fresh (dom h) := l]> h)) !! ETHAccountPath.relPath next
         = Some (core_relativePath (js_incr_at i l))).
  { intros i.
    destruct (resplit_result (fresh (dom h)) i (ETHAccountPath.addressNList msg)
                (<[fresh (dom h) := l]> h))
      as (next & h' & Hrun & Ha & Hh & Hr & _ & _).
    rewrite lookup_total_insert_eq in Hh, Hr.
    exists next. rewrite Hrun. cbn [fst snd]. tauto. }
  destruct (PathDescription.isKnown d); cbn [negb].
  - split; [intros E; discriminate E |].
    intros _ Hw.
    assert (Ht : truthy (PathDescription.wholeAccount d) = false).
    { destruct (PathDescription.wholeAccount d) as [[] |]; try reflexivity.
      exfalso. apply Hw. reflexivity. }
    rewrite Ht.
    split; [| split].
    + intros H5. rewrite H5. cbn [Nat.eqb]. apply Hans.
    + intros H4. rewrite H4. cbn [Nat.eqb]. apply Hans.
    + intros H5 H4.
      rewrite (proj2 (Nat.eqb_neq _ _) H5), (proj2 (Nat.eqb_neq _ _) H4).
      reflexivity.
  - split; [reflexivity | intros E; discriminate E].
Qed.

End EnumeratorsMore.

Lemma ethDescribeLedgerPath_known_inv_witness :
  let p := [VNum 0x8000002C; VNum 0x8000003C; VNum 0x80000005; VNum 0; VNum 0] in
  uint32_path p
  /\ PathDescription.isKnown (ethDescribeLedgerPath (core := spec_core) p) = true
  /\ exists i : Z,
      0 <= i < 2 ^ 31
      /\ PathDescription.accountIdx (ethDescribeLedgerPath (core := spec_core) p)
         = Some (VNum i)
      /\ (p = eth_account_path (core := spec_core) i
          \/ p = [VNum (hardened 44); VNum (hardened (spec_slip44ByCoin "Ethereum"));
                  VNum (hardened 0); VNum i]).
Proof.
  cbv zeta.
  assert (Hp : uint32_path
                 [VNum 0x8000002C; VNum 0x8000003C; VNum 0x80000005; VNum 0; VNum 0]).
  { unfold uint32_path. repeat constructor; eexists; (split; [reflexivity | lia]). }
  split; [exact Hp |]. split; [reflexivity |].
  exact (ethDescribeLedgerPath_known_inv (core := spec_core) _ Hp eq_refl).
Defined.

Lemma ethDescribeLedgerPath_forms_collide_witness :
  0 <= 3 < 2 ^ 31
  /\ ethDescribeLedgerPath (core := spec_core)
       [VNum (hardened 44); VNum (hardened (spec_slip44ByCoin "Ethereum"));
        VNum (hardened 0); VNum 3]
     = ethDescribeLedgerPath (core := spec_core) (eth_account_path 3).
Proof.
  split; [lia |].
  apply (ethDescribeLedgerPath_forms_collide (core := spec_core) 3). lia.
Defined.

Lemma describePath_ethereum_normalised_witness :
  let msg := {| DescribePath.path := [VNum 0x8000002C; VNum 0x8000003C; VNum 3];
                DescribePath.coin := "ETHEREUM";
                DescribePath.scriptType := Some P2WPKH |} in
  spells "ethereum" (DescribePath.coin msg) = true
  /\ PathDescription.coin (describePath (core := spec_core) msg) = "Ethereum"
  /\ PathDescription.scriptType (describePath (core := spec_core) msg) = None
  /\ describePath (core := spec_core) msg
     = describePath (core := spec_core)
         {| DescribePath.path := DescribePath.path msg;
            DescribePath.coin := "Ethereum";
            DescribePath.scriptType := None |}.
Proof.
  cbv zeta. split; [reflexivity |].
  exact (describePath_ethereum_normalised (core := spec_core)
           {| DescribePath.path := [VNum 0x8000002C; VNum 0x8000003C; VNum 3];
              DescribePath.coin := "ETHEREUM";
              DescribePath.scriptType := Some P2WPKH |} eq_refl).
Defined.

Lemma btcNextAccountPath_frame_witness :
  let msg := btc_first_account in
  let h := <[2%positive := [VNum 7]]> btc_first_account_heap in
  let path := [VNum (hardened 44); VNum (hardened 0); VNum (hardened 0); VNum 0; VNum 0] in
  let r := btcNextAccountPath (core := spec_core) msg h in
  h !! BTCAccountPath.addressNList msg = Some path
  /\ dom (snd r) = dom h
  /\ snd r !! 2%positive = Some [VNum 7]
  /\ fst r = Some msg
  /\ exists path',
      snd r !! BTCAccountPath.addressNList msg = Some path'
      /\ length path' = 5%nat
      /\ path' !! 0%nat = Some (VNum (hardened 44))
      /\ path' !! 4%nat = Some (VNum 0).
Proof.
  cbv zeta.
  pose proof (btcNextAccountPath_frame (core := spec_core) btc_first_account
                (<[2%positive := [VNum 7]]> btc_first_account_heap)
                [VNum (hardened 44); VNum (hardened 0); VNum (hardened 0); VNum 0; VNum 0]
                eq_refl) as (Hdom & Hother & _ & _ & Hin).
  destruct (Hin ltac:(cbn; lia)) as (path' & Hp' & Hlen & Hrest).
  split; [reflexivity |]. split; [exact Hdom |].
  split; [rewrite (Hother 2%positive) by discriminate; reflexivity |].
  split; [reflexivity |].
  exists path'. split; [exact Hp' |]. split; [exact Hlen |].
  split; [rewrite (Hrest 0%nat) by discriminate; reflexivity |].
  rewrite (Hrest 4%nat) by discriminate. reflexivity.
Defined.

Lemma btcNextAccountPath_twice_witness :
  let msg := btc_first_account in
  let h := btc_first_account_heap in
  let path := [VNum (hardened 44); VNum (hardened 0); VNum (hardened 0); VNum 0; VNum 0] in
  h !! BTCAccountPath.addressNList msg = Some path
  /\ path !! 2%nat = Some (VNum (hardened 0))
  /\ safe_integer (hardened 0)
  /\ safe_integer (hardened 0 + 1)
  /\ bip_purpose (js_index path 0)
  /\ exists next1 h1 next2 h2,
      btcNextAccountPath (core := spec_core) msg h = (Some next1, h1)
      /\ btcNextAccountPath (core := spec_core) next1 h1 = (Some next2, h2)
      /\ BTCAccountPath.addressNList next1 = BTCAccountPath.addressNList msg
      /\ BTCAccountPath.addressNList next2 = BTCAccountPath.addressNList msg
      /\ h1 !! BTCAccountPath.addressNList next1
         = Some (<[2%nat := VNum (hardened 0 + 1)]> path)
      /\ h2 !! BTCAccountPath.addressNList next1
         = Some (<[2%nat := VNum (hardened 0 + 2)]> path).
Proof.
  cbv zeta.
  assert (Hp : bip_purpose (js_index
      [VNum (hardened 44); VNum (hardened 0); VNum (hardened 0); VNum 0; VNum 0] 0))
    by (left; reflexivity).
  assert (Hsafe : safe_integer (hardened 0)) by (unfold safe_integer, hardened; lia).
  assert (Hsafe1 : safe_integer (hardened 0 + 1))
    by (unfold safe_integer, hardened; lia).
  split; [reflexivity |]. split; [reflexivity |].
  split; [exact Hsafe |]. split; [exact Hsafe1 |]. split; [exact Hp |].
  exact (btcNextAccountPath_twice (core := spec_core) btc_first_account
           btc_first_account_heap
           [VNum (hardened 44); VNum (hardened 0); VNum (hardened 0); VNum 0; VNum 0]
           (hardened 0) eq_refl eq_refl Hsafe Hsafe1 Hp eq_refl eq_refl).
Defined.

Lemma ethNextAccountPath_other_branches_witness :
  let hp := [VNum (hardened 44); VNum (hardened 60); VNum (hardened 0)] in
  let rp := [VNum 0; VNum 0] in
  let d := ethDescribePath (Core := bip44_core) (hp ++ rp) in
  let r := ethNextAccountPath (core := bip44_core) eth_msg eth_first_account_heap in
  eth_first_account_heap !! ETHAccountPath.hardenedPath eth_msg = Some hp
  /\ eth_first_account_heap !! ETHAccountPath.relPath eth_msg = Some rp
  /\ PathDescription.isKnown d = true
  /\ PathDescription.wholeAccount d = Some false
  /\ exists next,
      fst r = Some next
      /\ ETHAccountPath.addressNList next = ETHAccountPath.addressNList eth_msg
      /\ snd r !! ETHAccountPath.hardenedPath next
         = Some [VNum (hardened 44); VNum (hardened 60); VNum (hardened 1)]
      /\ snd r !! ETHAccountPath.relPath next = Some [VNum 0; VNum 0].
Proof.
  cbv zeta.
  pose proof (ethNextAccountPath_other_branches (core := bip44_core)
                eth_msg eth_first_account_heap
                [VNum (hardened 44); VNum (hardened 60); VNum (hardened 0)]
                [VNum 0; VNum 0] eq_refl eq_refl) as (_ & Hknown).
  assert (Hw : Some false <> Some true) by discriminate.
  destruct (Hknown eq_refl Hw) as (H5 & _ & _).
  repeat (split; [reflexivity |]).
  exact (H5 eq_refl).
Defined.

(** ** The wallet *)

Section WalletMore.
Context {env : Env}.

Lemma trace_grows (tr : list event) (e : event) : tr ++ [e] = tr -> False.
Proof.
  intros E. apply (f_equal length) in E. rewrite length_app in E. cbn in E. lia.
Qed.

(** The five ways [validateCurrentApp] can end. *)
Lemma validateCurrentApp_cases (coin : option string) (w : World) :
  let r := validateCurrentApp coin w in
  (no_coin coin /\ r = (inl (Error "No coin provided"), w))
  \/ (exists c,
        coin = Some c /\ c <> "" /\ unbound c
        /\ r = (inl (Error ("Unable to find associated app name for coin: " +:+ c)), w))
  \/ (exists c app,
        coin = Some c /\ c <> "" /\ coinToLedgerAppName c = Some app /\ app <> ""
        /\ ((exists e d,
               transport_call "getAppAndVersion" [] (dev w) = (inl e, d)
               /\ r = (inl (Thrown e), after_query w d))
            \/ (exists res d e,
                  transport_call "getAppAndVersion" [] (dev w) = (inr res, d)
                  /\ handleError res = Some e
                  /\ r = (inl (Thrown e), after_query w d))
            \/ (exists res d,
                  transport_call "getAppAndVersion" [] (dev w) = (inr res, d)
                  /\ handleError res = None
                  /\ payload_name res <> Some app
                  /\ r = (inl (WrongApp "Ledger" app), after_query w d))
            \/ (exists res d,
                  transport_call "getAppAndVersion" [] (dev w) = (inr res, d)
                  /\ handleError res = None
                  /\ payload_name res = Some app
                  /\ r = (inr tt, after_query w d)))).
Proof.
  cbv zeta. unfold validateCurrentApp, no_coin, unbound.
  destruct coin as [c |]; [| left; tauto].
  destruct (String.eqb_spec c "") as [-> | Hc]; [left; tauto |].
  right.
  destruct (coinToLedgerAppName c) as [app |] eqn:Happ;
    [| left; exists c; tauto].
  destruct (String.eqb_spec app "") as [-> | Ha]; [left; exists c; tauto |].
  right. exists c, app. repeat (split; [assumption || reflexivity |]).
  unfold wbind, transport_call_, handleError_, wret, throw, after_query.
  destruct (transport_call "getAppAndVersion" [] (dev w)) as [[e | res] d];
    [left; exists e, d; tauto |].
  right. destruct (handleError res) as [e |] eqn:He;
    [left; exists res, d, e; tauto |].
  right. case_bool_decide as Hn; cbn [negb];
    [right | left]; exists res, d; tauto.
Qed.

(** X10.  [validateCurrentApp] asks the device only for a coin with an
    application name.  Without a coin ([undefined] or the empty string)
    it throws "No coin provided"; for a coin without a name (no entry or
    an empty one) it throws "Unable to find associated app name for
    coin: " followed by the coin; in both cases the world is untouched,
    and these are the only cases in which no transport call is made. *)
Theorem validateCurrentApp_before_query (coin : option string) (w : World) :
  let r := validateCurrentApp coin w in
  (no_coin coin -> r = (inl (Error "No coin provided"), w))
  /\ (forall c, coin = Some c -> c <> "" -> unbound c ->
        r = (inl (Error ("Unable to find associated app name for coin: " +:+ c)), w))
  /\ (trace (snd r) = trace w <-> no_coin coin \/ exists c, coin = Some c /\ unbound c).
Proof.
  intros r. subst r.
  destruct (validateCurrentApp_cases coin w)
    as [[Hn ->] | [(c & -> & Hc & Hu & ->) | (c & app & -> & Hc & Happ & Ha & Hrest)]].
  - split; [reflexivity |]. split.
    + intros c -> Hc _. destruct Hn as [E | E]; congruence.
    + cbn [snd]. tauto.
  - split; [intros [E | E]; congruence |]. split.
    + intros c' E _ _. injection E as <-. reflexivity.
    + cbn [snd]. split; [intros _; right; exists c; tauto | reflexivity].
  - assert (Hgrow : trace (snd (validateCurrentApp (Some c) w)) = trace w -> False).
    { destruct Hrest as [(e & d & _ & ->) | [(res & d & e & _ & _ & ->)
        | [(res & d & _ & _ & _ & ->) | (res & d & _ & _ & _ & ->)]]];
        cbn [snd after_query trace]; apply trace_grows. }
    assert (Hbound : ~ unbound c).
    { unfold unbound. rewrite Happ. intros [E | E]; congruence. }
    split; [intros [E | E]; congruence |]. split.
    + intros c' E _ Hu. injection E as <-. contradiction.
    + split; [intros E; exfalso; exact (Hgrow E) |].
      intros [[E | E] | (c' & E & Hu)]; try congruence;
        try (injection E as <-; contradiction).
Qed.

(** X11.  For a coin with an application name, a failure of the query is
    thrown as it is: the error the transport rejects with, or the error
    [handleError] throws on the response, never [WrongApp]; the one call
    has been made. *)
Theorem validateCurrentApp_query_failure (coin app : string) (w : World) :
  coin <> "" ->
  coinToLedgerAppName coin = Some app ->
  app <> "" ->
  let r := validateCurrentApp (Some coin) w in
  (forall e d,
     transport_call "getAppAndVersion" [] (dev w) = (inl e, d) ->
     r = (inl (Thrown e), after_query w d))
  /\ (forall res d e,
        transport_call "getAppAndVersion" [] (dev w) = (inr res, d) ->
        handleError res = Some e ->
        r = (inl (Thrown e), after_query w d)).
Proof.
  intros Hcoin Happ Hne r. subst r.
  unfold validateCurrentApp.
  rewrite (proj2 (String.eqb_neq coin "") Hcoin), Happ,
          (proj2 (String.eqb_neq app "") Hne).
  unfold wbind, transport_call_, handleError_, throw, after_query.
  split.
  - intros e d Hcall. rewrite Hcall. reflexivity.
  - intros res d e Hcall Herr. rewrite Hcall, Herr. reflexivity.
Qed.

(** X12.  What the two outcomes of the comparison mean.  When
    [validateCurrentApp] returns without error, a coin was given, it has
    an application name, the device answered, and the name it reported is
    that name.  When it throws [WrongApp], the vendor is "Ledger", the
    expected application is the name of the coin, and the device
    reported something else. *)
Theorem validateCurrentApp_sound (coin : option string) (w : World) :
  let r := validateCurrentApp coin w in
  (fst r = inr tt ->
   exists c app res d,
     coin = Some c /\ coinToLedgerAppName c = Some app
     /\ transport_call "getAppAndVersion" [] (dev w) = (inr res, d)
     /\ handleError res = None
     /\ payload_name res = Some app
     /\ snd r = after_query w d)
  /\ (forall vendor expected,
        fst r = inl (WrongApp vendor expected) ->
        vendor = "Ledger"
        /\ exists c res d,
            coin = Some c /\ coinToLedgerAppName c = Some expected
            /\ transport_call "getAppAndVersion" [] (dev w) = (inr res, d)
            /\ handleError res = None
            /\ payload_name res <> Some expected).
Proof.
  intros r. subst r.
  destruct (validateCurrentApp_cases coin w)
    as [[Hn ->] | [(c & -> & Hc & Hu & ->) | (c & app & -> & Hc & Happ & Ha & Hrest)]];
    try (split; [intros E; discriminate E | intros v x E; discriminate E]).
  destruct Hrest as [(e & d & Hcall & ->) | [(res & d & e & Hcall & He & ->)
    | [(res & d & Hcall & He & Hn & ->) | (res & d & Hcall & He & Hn & ->)]]];
    cbn [fst snd];
    try (split; [intros E; discriminate E | intros v x E; discriminate E]).
  - split; [intros E; discriminate E |].
    intros v x E. injection E as <- <-. split; [reflexivity |].
    exists c, res, d. tauto.
  - split; [| intros v x E; discriminate E].
    intros _. exists c, app, res, d. tauto.
Qed.

(** X13.  A signing operation that reached its backend was preceded by
    an answer of the device naming the application of the operation's
    coin: no address or signature is requested from a backend while
    another application is open. *)
Theorem signing_reaches_backend_only_with_app (op : signing_op) (w : World) :
  backend_events (trace (snd (run_op op w))) <> backend_events (trace w) ->
  exists c app res d,
    guard_coin op = Some c
    /\ coinToLedgerAppName c = Some app
    /\ transport_call "getAppAndVersion" [] (dev w) = (inr res, d)
    /\ handleError res = None
    /\ payload_name res = Some app
    /\ run_op op w = invoke (backend_of op) (after_query w d).
Proof.
  rewrite run_op_unfold. intros Hb.
  destruct (validateCurrentApp_cases (guard_coin op) w)
    as [[Hn E] | [(c & Hg & Hc & Hu & E) | (c & app & Hg & Hc & Happ & Ha & Hrest)]].
  - rewrite E in Hb. cbn [snd] in Hb. contradiction.
  - rewrite E in Hb. cbn [snd] in Hb. contradiction.
  - destruct Hrest as [(e & d & Hcall & E) | [(res & d & e & Hcall & He & E)
      | [(res & d & Hcall & He & Hn & E) | (res & d & Hcall & He & Hn & E)]]];
      rewrite E in Hb |- *;
      try (exfalso; apply Hb; cbn [snd after_query trace];
           rewrite backend_events_app; cbn; apply app_nil_r).
    exists c, app, res, d. tauto.
Qed.

(** X14.  [getPublicKeys] throws a failure of its query as it is and
    then calls no backend; a backend is called only after the device
    answered with the name of a supported UTXO coin's application or
    with "Ethereum". *)
Theorem getPublicKeys_query_failure (msg : list GetPublicKey) (w : World) :
  let r := getPublicKeys msg w in
  (forall e d,
     transport_call "getAppAndVersion" [] (dev w) = (inl e, d) ->
     r = (inl (Thrown e), after_query w d))
  /\ (forall res d e,
        transport_call "getAppAndVersion" [] (dev w) = (inr res, d) ->
        handleError res = Some e ->
        r = (inl (Thrown e), after_query w d))
  /\ (backend_events (trace (snd r)) <> backend_events (trace w) ->
      exists res d,
        transport_call "getAppAndVersion" [] (dev w) = (inr res, d)
        /\ handleError res = None
        /\ (utxo_app (payload_name res) \/ payload_name res = Some "Ethereum")).
Proof.
  intros r. subst r.
  assert (Hsame : backend_events (trace w ++ [EvCall "getAppAndVersion" []])
                  = backend_events (trace w))
    by (rewrite backend_events_app; cbn; apply app_nil_r).
  split; [| split].
  - intros e d Hcall. unfold getPublicKeys, wbind, transport_call_.
    rewrite Hcall. reflexivity.
  - intros res d e Hcall Herr.
    unfold getPublicKeys, wbind, transport_call_, handleError_, throw.
    rewrite Hcall, Herr. reflexivity.
  - destruct (transport_call "getAppAndVersion" [] (dev w)) as [[e | res] d] eqn:Hcall.
    + unfold getPublicKeys, wbind, transport_call_. rewrite Hcall.
      cbn [snd trace]. intros Hb. contradiction.
    + destruct (handleError res) as [e |] eqn:Herr.
      * unfold getPublicKeys, wbind, transport_call_, handleError_, throw.
        rewrite Hcall, Herr. cbn [snd trace]. intros Hb. contradiction.
      * rewrite (getPublicKeys_run msg w res d Hcall Herr).
        case_bool_decide as Hu; [| case_bool_decide as He].
        -- intros _. exists res, d. rewrite btcApps_spec in Hu. tauto.
        -- intros _. exists res, d. tauto.
        -- cbn [snd after_query trace]. intros Hb. contradiction.
Qed.

End WalletMore.

Section DeviceCalls.
Context {env : Env} {info : DeviceInfo}.

(** X15.  [openApp] makes exactly one transport call, "openApp" with
    the application name as its argument, whatever application is open:
    it does not query the active application and calls no backend.  It
    returns exactly when the transport answers and [handleError] accepts
    the answer, and otherwise throws what the collaborator threw. *)
Theorem openApp_one_call (appName : string) (w : World) :
  let r := openApp appName w in
  trace (snd r) = trace w ++ [EvCall "openApp" [appName]]
  /\ dev (snd r) = snd (transport_call "openApp" [appName] (dev w))
  /\ (fst r = inr tt <->
      exists res d,
        transport_call "openApp" [appName] (dev w) = (inr res, d)
        /\ handleError res = None)
  /\ (forall e, fst r = inl e -> exists x, e = Thrown x).
Proof.
  intros r. subst r. unfold openApp, wbind, transport_call_, handleError_, wret, throw.
  destruct (transport_call "openApp" [appName] (dev w)) as [[e | res] d] eqn:Hcall;
    cbn [fst snd trace dev].
  - split; [reflexivity |]. split; [reflexivity |]. split.
    + split; [intros E; discriminate E | intros (res & d' & E & _); discriminate E].
    + intros e' E. injection E as <-. eauto.
  - destruct (handleError res) as [e |] eqn:Herr; cbn [fst snd trace dev];
      (split; [reflexivity |]); (split; [reflexivity |]); split.
    + split; [intros E; discriminate E |].
      intros (res' & d' & E & Hn). injection E as <- <-. congruence.
    + intros e' E. injection E as <-. eauto.
    + split; [intros _; exists res, d; tauto | reflexivity].
    + intros e' E. discriminate E.
Qed.

(** X16.  [getFeatures] makes exactly one transport call,
    "getDeviceInfo" without arguments, and returns the payload of the
    answer when [handleError] accepts it.  [getFirmwareVersion] is
    [getFeatures] followed by reading [version]: it leaves the same
    world, returns the version of that payload, and throws exactly what
    [getFeatures] throws. *)
Theorem getFirmwareVersion_of_features (w : World) :
  let f := getFeatures w in
  let r := getFirmwareVersion w in
  trace (snd f) = trace w ++ [EvCall "getDeviceInfo" []]
  /\ snd r = snd f
  /\ (forall res d,
        transport_call "getDeviceInfo" [] (dev w) = (inr res, d) ->
        handleError res = None ->
        fst f = inr (payload res) /\ fst r = inr (version (payload res)))
  /\ (forall e, fst f = inl e <-> fst r = inl e)
  /\ (forall e, fst f = inl e -> exists x, e = Thrown x).
Proof.
  intros f r. subst f r.
  unfold getFirmwareVersion, getFeatures, wbind, transport_call_, handleError_,
    wret, throw.
  destruct (transport_call "getDeviceInfo" [] (dev w)) as [[e | res] d] eqn:Hcall;
    cbn [fst snd trace].
  - split; [reflexivity |]. split; [reflexivity |].
    split; [intros res d' E; discriminate E |].
    split; [intros e0; split; intros E; injection E as <-; reflexivity |].
    intros e' E. injection E as <-. eauto.
  - destruct (handleError res) as [e |] eqn:Herr; cbn [fst snd trace];
      (split; [reflexivity |]); (split; [reflexivity |]); split.
    + intros res' d' E Hn. injection E as <- <-. congruence.
    + split; [intros e0; split; intros E; injection E as <-; reflexivity |].
    intros e' E. injection E as <-. eauto.
    + intros res' d' E _. injection E as <- <-. tauto.
    + split; [split; intros E; discriminate E |]. intros e' E. discriminate E.
Qed.

End DeviceCalls.

Lemma validateCurrentApp_query_failure_witness :
  "Ethereum" <> ""
  /\ coinToLedgerAppName (Env := flaky_env) "Ethereum" = Some "Ethereum"
  /\ validateCurrentApp (env := flaky_env) (Some "Ethereum") (@Build_World flaky_env None [])
     = (inl (Thrown "disconnected"),
        @Build_World flaky_env None [EvCall "getAppAndVersion" []])
  /\ validateCurrentApp (env := flaky_env) (Some "Ethereum")
       (@Build_World flaky_env (Some "") [])
     = (inl (Thrown "device error"),
        @Build_World flaky_env (Some "") [EvCall "getAppAndVersion" []]).
Proof.
  assert (Hne : "Ethereum" <> "") by discriminate.
  split; [exact Hne |]. split; [reflexivity |]. split.
  - exact (proj1 (validateCurrentApp_query_failure (env := flaky_env)
                    "Ethereum" "Ethereum" (@Build_World flaky_env None [])
                    Hne eq_refl Hne)
             "disconnected" None eq_refl).
  - exact (proj2 (validateCurrentApp_query_failure (env := flaky_env)
                    "Ethereum" "Ethereum" (@Build_World flaky_env (Some "") [])
                    Hne eq_refl Hne)
             {| success := false; payload_name := None |} (Some "") "device error"
             eq_refl eq_refl).
Defined.

Lemma signing_reaches_backend_only_with_app_witness :
  let w := {| dev := "Ethereum"; trace := [] |} in
  let op := EthSignTx (env := spec_env) tt in
  backend_events (trace (snd (run_op op w))) <> backend_events (trace w)
  /\ exists c app res d,
      guard_coin op = Some c
      /\ coinToLedgerAppName (Env := spec_env) c = Some app
      /\ transport_call (Env := spec_env) "getAppAndVersion" [] (dev w) = (inr res, d)
      /\ handleError (Env := spec_env) res = None
      /\ payload_name res = Some app
      /\ run_op op w = invoke (backend_of op) (after_query w d).
Proof.
  cbv zeta.
  assert (Hb : backend_events
                 (trace (snd (run_op (EthSignTx (env := spec_env) tt)
                                {| dev := "Ethereum"; trace := [] |})))
               <> backend_events (trace {| dev := "Ethereum"; trace := [] |}))
    by (vm_compute; discriminate).
  split; [exact Hb |].
  exact (signing_reaches_backend_only_with_app (env := spec_env)
           (EthSignTx tt) {| dev := "Ethereum"; trace := [] |} Hb).
Defined.

Section SigningMore.
Context {env : Env}.

(** X17.  A signing operation whose coin is missing or has no
    application name throws a plain error before anything is sent: the
    world, device and trace, is exactly as before. *)
Theorem signing_without_binding (op : signing_op) (w : World) :
  no_coin (guard_coin op) \/ (exists c, guard_coin op = Some c /\ unbound c) ->
  exists message, run_op op w = (inl (Error message), w).
Proof.
  intros Hmissing. rewrite run_op_unfold.
  destruct (validateCurrentApp_cases (guard_coin op) w)
    as [[Hn E] | [(c & Hg & Hc & Hu & E) | (c & app & Hg & Hc & Happ & Ha & _)]].
  - rewrite E. eauto.
  - rewrite E. eauto.
  - exfalso. destruct Hmissing as [[E | E] | (c' & E & [Hu | Hu])]; try congruence.
Qed.

End SigningMore.

Lemma signing_without_binding_witness :
  let w := {| dev := "Bitcoin"; trace := [] |} in
  no_coin (guard_coin (BtcSignTx (env := spec_env) None))
  /\ (exists c, guard_coin (BtcGetAddress (env := spec_env) (Some "Dogecoin")) = Some c
                /\ unbound (env := spec_env) c)
  /\ (exists message, run_op (BtcSignTx (env := spec_env) None) w
                      = (inl (Error message), w))
  /\ (exists message, run_op (BtcGetAddress (env := spec_env) (Some "Dogecoin")) w
                      = (inl (Error message), w)).
Proof.
  cbv zeta.
  assert (H1 : no_coin (guard_coin (BtcSignTx (env := spec_env) None)))
    by (left; reflexivity).
  assert (H2 : exists c, guard_coin (BtcGetAddress (env := spec_env) (Some "Dogecoin"))
                         = Some c /\ unbound (env := spec_env) c)
    by (exists "Dogecoin"; split; [reflexivity | left; reflexivity]).
  split; [exact H1 |]. split; [exact H2 |]. split.
  - exact (signing_without_binding (env := spec_env) (BtcSignTx None)
             {| dev := "Bitcoin"; trace := [] |} (or_introl H1)).
  - exact (signing_without_binding (env := spec_env) (BtcGetAddress (Some "Dogecoin"))
             {| dev := "Bitcoin"; trace := [] |} (or_intror H2)).
Defined.
